(** * angular-bundler: the module graph builder and dependency resolver

    A shallow embedding of [src/modulesBuilder.js]: the module graph
    ([ModulesStructure]), the sandbox that records [angular.module] calls,
    the cycle detector [findCircularReference], the resolver
    [resolveDependencies], the DOT export and the inject validator
    [validateInjects]; and of [insertBetweenLabels] of the imports writer.

    Modelling conventions.
    - A [ModulesStructure] is a plain JavaScript object ([{}]) used as a map
      from module names to [ModuleConfig] objects.  Its own properties are an
      association list in [Object.keys] order: names that are array indices
      first, in ascending numeric order, then the other names in the order
      in which they were created ([set]).  [get] reads an own property;
      [lookup] is the property read [modules[name]], which also finds the
      members every plain object inherits from [Object.prototype].
    - [Object.prototype] is as the engine provides it when a scan starts.
      The code can change it in one way: [angular.module] called with the
      name of an inherited member and a dependency list writes a
      [dependencies] property onto that member.  The sandbox records
      whether [Object.prototype] itself was given that property, since the
      name [dependencies] is inherited from then on.  The cycle detector,
      the resolver and the validator are modelled where no inherited member
      has a [dependencies] property.
    - JavaScript exceptions are the [Throw] outcome of a [result]; a
      recursion that would exhaust the call stack is the [Exhausted] outcome
      of a fuel-indexed function.
    - File sizes are the non-negative whole numbers produced by
      [Math.ceil(bytes / 1024.0)]. *)

From Stdlib Require Import ZArith NArith.
From stdpp Require Import gmap strings list.

Set Warnings "-clear-no-such-hyp".

(** ** Data model *)

Module ProviderConfig.
Record t : Type := Build { name : string; injects : list string }.
End ProviderConfig.

Module ModuleConfig.
Record t : Type := Build {
    dependencies : list string;
    files : list string;
    size : N;
    providers : list ProviderConfig.t
  }.

  (** [new ModuleConfig()] *)
Definition new : t :=
    {| dependencies := []; files := []; size := 0%N; providers := [] |}.
End ModuleConfig.

Abbreviation ModulesStructure := (list (string * ModuleConfig.t)).

(** [Object.keys(modules)] *)
Definition keys (modules : ModulesStructure) : list string := modules.*1.

(** The own property [name] of [modules], if there is one. *)
Fixpoint get (modules : ModulesStructure) (name : string) : option ModuleConfig.t :=
  match modules with
  | [] => None
  | (k, m) :: rest => if decide (k = name) then Some m else get rest name
  end.

(** ** Members inherited from [Object.prototype] *)

(** The own properties of [Object.prototype]; every object created with
    [{}] has them through its prototype. *)
Definition objectPrototypeMembers : list string :=
  ["constructor"; "__defineGetter__"; "__defineSetter__"; "hasOwnProperty";
   "__lookupGetter__"; "__lookupSetter__"; "isPrototypeOf";
   "propertyIsEnumerable"; "toString"; "valueOf"; "__proto__";
   "toLocaleString"].

(** Whether a plain object without own property [name] still has a
    property of that name.  Once [Object.prototype] has been given a
    [dependencies] property, that name is inherited as well. *)
Definition inherited (prototypeDependencies : bool) (name : string) : bool :=
  bool_decide (name ∈ objectPrototypeMembers)
  || (prototypeDependencies && bool_decide (name = "dependencies")).

(** What the read [modules[name]] gives: the own property, or an inherited
    member (a function, [Object.prototype] itself for [__proto__], or the
    array written to [Object.prototype.dependencies]), or [undefined].  An
    inherited member is truthy and has no [files] and no [providers]. *)
Inductive Property : Type :=
| Own (module : ModuleConfig.t)
| Inherited
| Undefined.

Definition lookup (prototypeDependencies : bool) (modules : ModulesStructure)
    (name : string) : Property :=
  match get modules name with
  | Some m => Own m
  | None => if inherited prototypeDependencies name then Inherited else Undefined
  end.

(** ** The order of [Object.keys] *)

Definition digit (c : Ascii.ascii) : option N :=
  let code := Ascii.N_of_ascii c in
  if ((48 <=? code) && (code <=? 57))%N then Some (code - 48)%N else None.

Fixpoint decimal (s : string) (value : N) : option N :=
  match s with
  | EmptyString => Some value
  | String c rest =>
      match digit c with
      | Some d => decimal rest (10 * value + d)%N
      | None => None
      end
  end.

(** The array index a property name stands for: a decimal numeral without a
    leading zero (other than [0] itself) whose value is below [2^32 - 1]. *)
Definition arrayIndex (name : string) : option N :=
  match name with
  | EmptyString => None
  | String c rest =>
      if bool_decide (digit c = Some 0%N) && negb (bool_decide (rest = EmptyString))
      then None
      else
        match decimal name 0 with
        | Some value => if (value <? 4294967295)%N then Some value else None
        | None => None
        end
  end.

(** An existing own property keeps its place. *)
Fixpoint replaceEntry (modules : ModulesStructure) (name : string)
    (m : ModuleConfig.t) : ModulesStructure :=
  match modules with
  | [] => []
  | (k, m') :: rest =>
      if decide (k = name) then (k, m) :: rest
      else (k, m') :: replaceEntry rest name m
  end.

(** A new array index goes behind the smaller array indices and before
    everything else. *)
Fixpoint insertIndexed (index : N) (name : string) (m : ModuleConfig.t)
    (modules : ModulesStructure) : ModulesStructure :=
  match modules with
  | [] => [(name, m)]
  | (k, m') :: rest =>
      match arrayIndex k with
      | Some j =>
          if (j <? index)%N then (k, m') :: insertIndexed index name m rest
          else (name, m) :: (k, m') :: rest
      | None => (name, m) :: (k, m') :: rest
      end
  end.

(** [modules[name] = m], where [modules[name]] is an own property or
    [undefined] (the code assigns in no other case): an own property is
    replaced in place; a new name becomes an own property, listed by
    [Object.keys] among the array indices if it is one and last if not. *)
Definition set (modules : ModulesStructure) (name : string) (m : ModuleConfig.t)
  : ModulesStructure :=
  match get modules name with
  | Some _ => replaceEntry modules name m
  | None =>
      match arrayIndex name with
      | Some index => insertIndexed index name m modules
      | None => modules ++ [(name, m)]
      end
  end.

(** ** Outcomes of a call *)

Inductive exn : Type :=
| CRef (trail : list string)
| TypeError
| Error (message : string).

Inductive result (A : Type) : Type :=
| Ret (a : A)
| Throw (e : exn)
| Exhausted.
Arguments Ret {A} a.
Arguments Throw {A} e.
Arguments Exhausted {A}.

(** [array.forEach(f)] for a callback that may throw. *)
Fixpoint forEach {A : Type} (f : A → result unit) (array : list A) : result unit :=
  match array with
  | [] => Ret tt
  | x :: rest =>
      match f x with
      | Ret _ => forEach f rest
      | Throw e => Throw e
      | Exhausted => Exhausted
      end
  end.

(** [array.indexOf(element)]: the first position, or -1. *)
Fixpoint indexOfFrom (i : Z) (element : string) (array : list string) : Z :=
  match array with
  | [] => (-1)%Z
  | y :: rest =>
      if decide (y = element) then i else indexOfFrom (i + 1)%Z element rest
  end.

Definition indexOf (element : string) (array : list string) : Z :=
  indexOfFrom 0 element array.

(** ** Cycle detector *)

Section CycleDetector.
Variable modules : ModulesStructure.

(** [modules[module].dependencies] is read without a test: for a name
    that is no own property the read gives [undefined] (of an inherited
    member, or of [undefined] itself) and the code throws a [TypeError].
    [if (modules[dep])] lets through the modules of the graph and the
    inherited members. *)
Fixpoint doFind (fuel : nat) (module : string) (trail : list string)
    : result unit :=
    match fuel with
    | O => Exhausted
    | S fuel' =>
        if bool_decide (0 ≤ indexOf module trail)%Z then
          Throw (CRef (trail ++ [module]))
        else
          match get modules module with
          | None => Throw TypeError
          | Some m =>
              let deps := ModuleConfig.dependencies m in
              if bool_decide (0 < length deps) then
                forEach (fun dep =>
                           match lookup false modules dep with
                           | Own _ | Inherited =>
                               doFind fuel' dep (trail ++ [module])
                           | Undefined => Ret tt
                           end) deps
              else Ret tt
          end
    end.

  (** The [for] loop over [modulesNames]; falling off its end returns
      [undefined], here [None]. *)
Fixpoint findLoop (fuel : nat) (modulesNames : list string)
    : result (option (list string)) :=
    match modulesNames with
    | [] => Ret None
    | n :: rest =>
        match doFind fuel n [] with
        | Ret _ => findLoop fuel rest
        | Throw (CRef trail) => Ret (Some trail)
        | Throw e => Throw e
        | Exhausted => Exhausted
        end
    end.
End CycleDetector.

Definition findCircularReferenceFuel (fuel : nat) (modules : ModulesStructure)
  : result (option (list string)) :=
  findLoop modules fuel (keys modules).

(** One stack frame per module on the trail, and one more, is always enough
    (see [doFind_terminates]). *)
Definition findCircularReference (modules : ModulesStructure)
  : result (option (list string)) :=
  findCircularReferenceFuel (S (length modules)) modules.

(** ** Dependency resolver *)

(** [array.reduce(callback, initial)] for a callback that may throw. *)
Fixpoint reduce {A B : Type} (callback : B → A → result B) (array : list A)
    (initial : B) : result B :=
  match array with
  | [] => Ret initial
  | x :: rest =>
      match callback initial x with
      | Ret prev => reduce callback rest prev
      | Throw e => Throw e
      | Exhausted => Exhausted
      end
  end.

(** [array.filter(callback)]; the callback is given the element, its index
    and the whole array. *)
Fixpoint filterFrom (callback : string → Z → list string → bool)
    (array : list string) (index : Z) (rest : list string) : list string :=
  match rest with
  | [] => []
  | element :: rest' =>
      if callback element index array
      then element :: filterFrom callback array (index + 1)%Z rest'
      else filterFrom callback array (index + 1)%Z rest'
  end.

Definition arrayFilter (callback : string → Z → list string → bool)
    (array : list string) : list string :=
  filterFrom callback array 0 array.

Definition dropDuplicates (element : string) (index : Z) (array : list string)
  : bool :=
  bool_decide (index = indexOf element array).

Section Resolver.
Variable modules : ModulesStructure.

(** For an inherited member, [modules[dep].dependencies] is [undefined]
    and [doResolve(undefined)] throws a [TypeError] at [deps.reduce]. *)
Fixpoint doResolve (fuel : nat) (deps : list string) : result (list string) :=
    match fuel with
    | O => Exhausted
    | S fuel' =>
        match
          reduce (fun prev dep =>
                    match lookup false modules dep with
                    | Own m =>
                        match doResolve fuel' (ModuleConfig.dependencies m) with
                        | Ret resolved => Ret ((prev ++ resolved) ++ [dep])
                        | Throw e => Throw e
                        | Exhausted => Exhausted
                        end
                    | Inherited => Throw TypeError
                    | Undefined => Ret prev
                    end) deps []
        with
        | Ret collected => Ret (arrayFilter dropDuplicates collected)
        | Throw e => Throw e
        | Exhausted => Exhausted
        end
    end.
End Resolver.

Definition circularDependencyMessage : string :=
  "Can not build dependency tree - found circular dependency".

(** A returned trail is an array, and every array is truthy; [undefined] is
    falsy. *)
Definition resolveDependenciesFuel (fuel : nat) (moduleName : string)
    (modules : ModulesStructure) : result (list string) :=
  match findCircularReferenceFuel fuel modules with
  | Ret (Some _) => Throw (Error circularDependencyMessage)
  | Ret None => doResolve modules fuel [moduleName]
  | Throw e => Throw e
  | Exhausted => Exhausted
  end.

(** Two frames more than there are modules is always enough (see
    [resolve_returns]). *)
Definition resolveDependencies (moduleName : string) (modules : ModulesStructure)
  : result (list string) :=
  resolveDependenciesFuel (S (S (length modules))) moduleName modules.

(** ** The sandbox that records declarations *)

(** The constructor argument of a provider-like call: an array
    [[...injected, fn]], a function with its declared number of parameters,
    or anything else. *)
Inductive Constructor : Type :=
| ArrayConstructor (injected : list string)
| FunctionConstructor (arity : nat)
| OtherConstructor.

(** What [new serviceConstructor()] gives in [angular.module.provider]: it
    throws (with the text of the error), or the constructed object has no
    truthy [$get], a [$get] without own enumerable keys, or a [$get] that is
    passed on to [validateConstructor]. *)
Inductive Constructed : Type :=
| ConstructionFails (errorText : string)
| WithoutGet
| WithEmptyGet
| WithGet (getField : Constructor).

(** The sandbox methods that go through [validateConstructor], and the
    ones that record nothing. *)
Module ValidatedKind.
Inductive t : Type := factory | service | controller | directive.
End ValidatedKind.

Module IgnoredKind.
Inductive t : Type :=
  | value | constant | decorator | animation | filter | config | run.
End IgnoredKind.

(** A call a script makes on the sandbox. *)
Inductive Call : Type :=
| CallModule (name : string) (dependencies : option (list string))
| CallProvider (name : string) (constructor : Constructor)
    (constructed : Constructed)
| CallValidated (kind : ValidatedKind.t) (name : string)
    (constructor : Constructor)
| CallIgnored (kind : IgnoredKind.t).

(** A script, seen from the sandbox: the calls it makes, and the places
    where it throws by itself.  An exception that a call throws ends the
    script ([Do]) unless the script catches it and goes on ([Try]);
    nothing after an uncaught exception is executed. *)
Inductive Statement : Type :=
| Do (call : Call)
| Try (call : Call)
| Fail (e : exn).

Module SourceFile.
  (** [currentFileName] (after [filePathMapper]), [currentFileSize] and the
      text of the file. *)
Record t : Type := Build {
    fileName : string;
    fileSize : N;
    script : list Statement
  }.
End SourceFile.

Module Sandbox.
  (** The variables the closures of [buildAngularModuleSandbox] share, the
      lines written with [console.error], and whether [Object.prototype]
      has been given a [dependencies] property. *)
Record t : Type := Build {
    modules : ModulesStructure;
    currentModuleName : option string;
    console : list string;
    prototypeDependencies : bool
  }.

Definition initial : t :=
    {| modules := []; currentModuleName := None; console := [];
       prototypeDependencies := false |}.

Definition error (st : t) (line : string) : t :=
    {| modules := modules st;
       currentModuleName := currentModuleName st;
       console := console st ++ [line];
       prototypeDependencies := prototypeDependencies st |}.
End Sandbox.

(** [!currentModuleName]: [null] and the empty string are falsy. *)
Definition noCurrentModule (currentModuleName : option string) : bool :=
  match currentModuleName with
  | None => true
  | Some n => bool_decide (n = EmptyString)
  end.

Section SandboxCalls.
  (** [getFileNameFn()] and [getFileSizeFn()] *)
Variable fileName : string.
Variable fileSize : N.

  (** [sandbox.angular.module].  When [modules[name]] is an inherited
      member, nothing is assigned to [modules[name]]; the dependency list,
      if one is passed, is written onto the member (onto [Object.prototype]
      when the name is [__proto__]), and [module.files.indexOf] throws a
      [TypeError] before [currentModuleName] is set. *)
Definition angular_module (st : Sandbox.t) (name : string)
      (dependencies : option (list string)) : Sandbox.t * option exn :=
    match
      lookup (Sandbox.prototypeDependencies st) (Sandbox.modules st) name
    with
    | Inherited =>
        ({| Sandbox.modules := Sandbox.modules st;
            Sandbox.currentModuleName := Sandbox.currentModuleName st;
            Sandbox.console := Sandbox.console st;
            Sandbox.prototypeDependencies :=
              Sandbox.prototypeDependencies st
              || (bool_decide (name = "__proto__")
                  && bool_decide (is_Some dependencies)) |},
         Some TypeError)
    | found =>
        let module0 :=
          match found with Own m => m | _ => ModuleConfig.new end in
        let module1 :=
          match dependencies with
          | Some deps =>
              ModuleConfig.Build deps (ModuleConfig.files module0)
                (ModuleConfig.size module0) (ModuleConfig.providers module0)
          | None => module0
          end in
        let module2 :=
          if bool_decide (indexOf fileName (ModuleConfig.files module1) < 0)%Z
          then
            ModuleConfig.Build (ModuleConfig.dependencies module1)
              (match dependencies with
               | Some _ => [fileName] ++ ModuleConfig.files module1
               | None => ModuleConfig.files module1 ++ [fileName]
               end)
              (ModuleConfig.size module1 + fileSize)%N
              (ModuleConfig.providers module1)
          else module1 in
        ({| Sandbox.modules := set (Sandbox.modules st) name module2;
            Sandbox.currentModuleName := Some name;
            Sandbox.console := Sandbox.console st;
            Sandbox.prototypeDependencies :=
              Sandbox.prototypeDependencies st |}, None)
    end.

  (** [modules[currentModuleName].providers] is read without a test:
      whatever is no own property has no [providers], and [.some] throws. *)
Definition validateConstructor (st : Sandbox.t) (name : string)
      (constructor : Constructor) : Sandbox.t * option exn :=
    let isArrayMinifyReadyConstructor :=
      match constructor with ArrayConstructor _ => true | _ => false end in
    let isFunctionMinifyReadyConstructor :=
      match constructor with FunctionConstructor O => true | _ => false end in
    if negb isArrayMinifyReadyConstructor
       && negb isFunctionMinifyReadyConstructor then
      (Sandbox.error st
         ("Some provider in file " +:+ fileName
          +:+ " is not minify-ready. Possible name is " +:+ name), None)
    else if noCurrentModule (Sandbox.currentModuleName st) then
      (Sandbox.error st
         ("Provider " +:+ name +:+ " is defined before it's module"), None)
    else
      let current := default EmptyString (Sandbox.currentModuleName st) in
      match get (Sandbox.modules st) current with
      | None => (st, Some TypeError)
      | Some module =>
          if existsb (fun provider =>
                        bool_decide (ProviderConfig.name provider = name))
               (ModuleConfig.providers module) then
            (Sandbox.error st ("Duplicate declaration of " +:+ name), None)
          else
            let config :=
              {| ProviderConfig.name := name;
                 ProviderConfig.injects :=
                   match constructor with
                   | ArrayConstructor injected => injected
                   | _ => []
                   end |} in
            ({| Sandbox.modules :=
                  set (Sandbox.modules st) current
                    (ModuleConfig.Build (ModuleConfig.dependencies module)
                       (ModuleConfig.files module) (ModuleConfig.size module)
                       (ModuleConfig.providers module ++ [config]));
                Sandbox.currentModuleName := Sandbox.currentModuleName st;
                Sandbox.console := Sandbox.console st;
                Sandbox.prototypeDependencies :=
                  Sandbox.prototypeDependencies st |}, None)
      end.

  (** [sandbox.angular.module.provider] *)
Definition angular_module_provider (st : Sandbox.t) (name : string)
      (constructor : Constructor) (constructed : Constructed)
    : Sandbox.t * option exn :=
    let '(st1, thrown) :=
      match constructor with
      | ArrayConstructor _ =>
          validateConstructor st (name +:+ "Provider") constructor
      | _ => (st, None)
      end in
    match thrown with
    | Some e => (st1, Some e)
    | None =>
        match constructed with
        | ConstructionFails errorText =>
            (Sandbox.error st1
               ("Unable to create provider in file " +:+ fileName
                +:+ ". Possible name is " +:+ name
                +:+ ". Error: " +:+ errorText), None)
        | WithoutGet =>
            (Sandbox.error st1
               ("Provider " +:+ name +:+ " is missing $get field"), None)
        | WithEmptyGet => (st1, None)
        | WithGet getField => validateConstructor st1 name getField
        end
    end.

Definition applyCall (st : Sandbox.t) (call : Call) : Sandbox.t * option exn :=
    match call with
    | CallModule name dependencies => angular_module st name dependencies
    | CallProvider name constructor constructed =>
        angular_module_provider st name constructor constructed
    | CallValidated _ name constructor => validateConstructor st name constructor
    | CallIgnored _ => (st, None)
    end.

  (** [vm.runInContext(file, angularModuleSandbox)]: the sandbox as the
      script left it, and the exception that ended the script, if any. *)
Fixpoint runInContext (st : Sandbox.t) (script : list Statement)
    : Sandbox.t * option exn :=
    match script with
    | [] => (st, None)
    | Fail e :: _ => (st, Some e)
    | Do call :: rest =>
        match applyCall st call with
        | (st', None) => runInContext st' rest
        | (st', Some e) => (st', Some e)
        end
    | Try call :: rest => runInContext (applyCall st call).1 rest
    end.
End SandboxCalls.

(** The body of [filenames.forEach]: the [catch] block is empty, so the
    exception is dropped and the sandbox stays as the script left it. *)
Definition processFile (st : Sandbox.t) (file : SourceFile.t) : Sandbox.t :=
  match
    runInContext (SourceFile.fileName file) (SourceFile.fileSize file) st
      (SourceFile.script file)
  with
  | (st', None) => st'
  | (st', Some _) => st'
  end.

Definition processFiles (st : Sandbox.t) (files : list SourceFile.t) : Sandbox.t :=
  foldl processFile st files.

(** [dirs] is given as the files [glob.sync] finds in each directory. *)
Definition buildModulesStructure (dirs : list (list SourceFile.t))
  : ModulesStructure :=
  Sandbox.modules (foldl processFiles Sandbox.initial dirs).

(** ** DOT export *)

Definition quote : string := String (Ascii.ascii_of_nat 34) EmptyString.
Definition newline : string := String (Ascii.ascii_of_nat 10) EmptyString.
Definition tab : string := String (Ascii.ascii_of_nat 9) EmptyString.

(** [array.join(separator)] *)
Definition join (separator : string) (array : list string) : string :=
  match array with
  | [] => EmptyString
  | x :: rest => foldl (fun acc y => acc +:+ separator +:+ y) x rest
  end.

Definition dotNode (name : string) : string := quote +:+ name +:+ quote +:+ ";".

Definition dotEdge (moduleName dep : string) : string :=
  tab +:+ quote +:+ moduleName +:+ quote +:+ " -> " +:+ quote +:+ dep
  +:+ quote +:+ ";" +:+ newline.

Definition buildDOTDiagram (modules : ModulesStructure) : string :=
  let localModules := keys modules in
  let graph := "digraph dependencies {" +:+ newline in
  let graph := graph +:+ join newline (dotNode <$> localModules) in
  let graph := graph +:+ newline in
  let graph :=
    foldl (fun graph '(moduleName, module) =>
             foldl (fun graph dep =>
                      if bool_decide (0 ≤ indexOf dep localModules)%Z
                      then graph +:+ dotEdge moduleName dep
                      else graph)
               graph (ModuleConfig.dependencies module))
      graph modules in
  graph +:+ newline +:+ "}".

(** ** Inject validator *)

(** The index [moduleByProvider] is a plain object as well: its own
    properties are the provider names written so far. *)
Abbreviation ProviderIndex := (gmap string string).

(** [prev[provider.name] = moduleName]: a later write for the same name
    replaces an earlier one.  Under the name [__proto__] the assignment
    goes to the setter of [Object.prototype], which ignores a string. *)
Definition indexWrite (prev : ProviderIndex) (providerName moduleName : string)
  : ProviderIndex :=
  if bool_decide (providerName = "__proto__") then prev
  else <[providerName := moduleName]> prev.

Definition moduleByProvider (modules : ModulesStructure) : ProviderIndex :=
  foldl (fun prev '(moduleName, module) =>
           foldl (fun prev provider =>
                    indexWrite prev (ProviderConfig.name provider) moduleName)
             prev (ModuleConfig.providers module))
    ∅ modules.

(** What the read [moduleByProvider[inject]] gives: the module name
    written under that name, or an inherited member, or [undefined]. *)
Inductive IndexEntry : Type :=
| OwnerName (moduleName : string)
| InheritedMember
| NoEntry.

Definition indexRead (index : ProviderIndex) (inject : string) : IndexEntry :=
  match index !! inject with
  | Some moduleName => OwnerName moduleName
  | None =>
      if bool_decide (inject ∈ objectPrototypeMembers) then InheritedMember
      else NoEntry
  end.

(** The text an inherited member has when it is concatenated to a string:
    the source text of a built-in function, and [[object Object]] for
    [Object.prototype]. *)
Definition memberText (name : string) : string :=
  if bool_decide (name = "__proto__") then "[object Object]"
  else
    "function "
    +:+ (if bool_decide (name = "constructor") then "Object" else name)
    +:+ "() { [native code] }".

(** The text of [moduleDependency] in the message. *)
Definition entryText (inject : string) (entry : IndexEntry) : string :=
  match entry with
  | OwnerName moduleName => moduleName
  | InheritedMember => memberText inject
  | NoEntry => "undefined"
  end.

Definition injectError (moduleName providerName inject moduleDependency : string)
  : string :=
  "Module " +:+ moduleName +:+ " have provider " +:+ providerName
  +:+ " which injects " +:+ inject +:+ " defined in " +:+ moduleDependency
  +:+ ", but module " +:+ moduleName +:+ " do not depends on module "
  +:+ moduleDependency +:+ " explicitly".

(** The value of [invalidInject], as a boolean: [undefined] and the empty
    string are falsy; an inherited member is truthy, and since it is no
    string it is [!==] to every module name and to every entry of the
    dependency list. *)
Definition invalidInject (index : ProviderIndex) (moduleName : string)
    (module : ModuleConfig.t) (inject : string) : bool :=
  match indexRead index inject with
  | NoEntry => false
  | InheritedMember => true
  | OwnerName moduleDependency =>
      negb (bool_decide (moduleDependency = EmptyString))
      && negb (bool_decide (moduleDependency = moduleName))
      && negb (existsb (fun depName => bool_decide (depName = moduleDependency))
                 (ModuleConfig.dependencies module))
  end.

Definition validateInjects (modules : ModulesStructure) : list string :=
  let index := moduleByProvider modules in
  foldl (fun errors '(moduleName, module) =>
           foldl (fun errors provider =>
                    foldl (fun errors inject =>
                             if invalidInject index moduleName module inject
                             then
                               errors
                               ++ [injectError moduleName
                                     (ProviderConfig.name provider) inject
                                     (entryText inject
                                        (indexRead index inject))]
                             else errors)
                      errors (ProviderConfig.injects provider))
             errors (ModuleConfig.providers module))
    [] modules.

(** ** Invariants of a built graph *)

(** No file is listed twice in a module. *)
Definition files_unique (modules : ModulesStructure) : Prop :=
  ∀ name m, (name, m) ∈ modules → NoDup (ModuleConfig.files m).

(** A module that owns providers has a truthy (non-empty) name. *)
Definition owners_named (modules : ModulesStructure) : Prop :=
  ∀ name m, (name, m) ∈ modules →
    ModuleConfig.providers m ≠ [] → name ≠ EmptyString.

(** ** The provider declarations of a graph *)

(** Every provider declaration of the graph, with its module, in scan
    order. *)
Definition declarations (modules : ModulesStructure) : list (string * string) :=
  '(moduleName, module) ← modules;
  (fun provider => (ProviderConfig.name provider, moduleName))
    <$> ModuleConfig.providers module.

(** The module of the last declaration of a provider name. *)
Definition lastOwner (modules : ModulesStructure) (providerName : string)
  : option string :=
  snd <$> last (filter (fun d => d.1 = providerName) (declarations modules)).



(** ** Example graphs *)

Definition declared (deps : list string) : ModuleConfig.t :=
  {| ModuleConfig.dependencies := deps; ModuleConfig.files := [];
     ModuleConfig.size := 0%N; ModuleConfig.providers := [] |}.


(** [A:["B"]], [B:["A"]] *)
Definition cycleAB : ModulesStructure :=
  [("A", declared ["B"]); ("B", declared ["A"])].


(** [A] names a module that was never scanned. *)
Definition danglingAB : ModulesStructure :=
  [("A", declared ["ghost"; "B"]); ("B", declared ["ghost"])].


(** Modules [X] and [Y] both declare a provider [svc]; provider [p] of [X]
    injects [svc]. *)
Definition clashXY : ModulesStructure :=
  [("X", {| ModuleConfig.dependencies := []; ModuleConfig.files := ["x.js"];
            ModuleConfig.size := 1%N;
            ModuleConfig.providers :=
              [{| ProviderConfig.name := "svc"; ProviderConfig.injects := [] |};
               {| ProviderConfig.name := "p";
                  ProviderConfig.injects := ["svc"] |}] |});
   ("Y", {| ModuleConfig.dependencies := []; ModuleConfig.files := ["y.js"];
            ModuleConfig.size := 1%N;
            ModuleConfig.providers :=
              [{| ProviderConfig.name := "svc";
                  ProviderConfig.injects := [] |}] |})].

(** [A] lists a dependency that is named like an inherited member and is
    no module of the graph. *)
Definition inheritedDependency : ModulesStructure :=
  [("A", declared ["constructor"])].

(** The same, on a graph with a cycle. *)
Definition inheritedInCycle : ModulesStructure :=
  [("A", declared ["constructor"; "B"]); ("B", declared ["A"])].

(** Provider [p] of module [X] injects [toString], which no provider of
    the graph declares. *)
Definition injectToString : ModulesStructure :=
  [("X", {| ModuleConfig.dependencies := []; ModuleConfig.files := ["x.js"];
            ModuleConfig.size := 1%N;
            ModuleConfig.providers :=
              [{| ProviderConfig.name := "p";
                  ProviderConfig.injects := ["toString"] |}] |})].

(** ** Example source files *)


Definition withScript (file : SourceFile.t) (script : list Statement)
  : SourceFile.t :=
  {| SourceFile.fileName := SourceFile.fileName file;
     SourceFile.fileSize := SourceFile.fileSize file;
     SourceFile.script := script |}.

(** [g.js] adds itself to module [a]; [f.js] does the same and declares
    the module only afterwards. *)
Definition referenceFile : SourceFile.t :=
  {| SourceFile.fileName := "g.js"; SourceFile.fileSize := 1%N;
     SourceFile.script := [Do (CallModule "a" None)] |}.

Definition lateDeclarationFile : SourceFile.t :=
  {| SourceFile.fileName := "f.js"; SourceFile.fileSize := 1%N;
     SourceFile.script :=
       [Do (CallModule "a" None); Do (CallModule "a" (Some ["x"]))] |}.

(** [app.js] declares [app] depending on [lib]; [lib.js] only refers to
    [lib]. *)
Definition appFile : SourceFile.t :=
  {| SourceFile.fileName := "app.js"; SourceFile.fileSize := 4%N;
     SourceFile.script := [Do (CallModule "app" (Some ["lib"]))] |}.

Definition libFile : SourceFile.t :=
  {| SourceFile.fileName := "lib.js"; SourceFile.fileSize := 1%N;
     SourceFile.script := [Do (CallModule "lib" None)] |}.

(** A module with the empty name, providers declared under it and under
    a named module, one of them twice. *)
Definition anonymousFile : SourceFile.t :=
  {| SourceFile.fileName := "n.js"; SourceFile.fileSize := 1%N;
     SourceFile.script :=
       [Do (CallModule EmptyString (Some []));
        Do (CallValidated ValidatedKind.factory "svc" (FunctionConstructor 0));
        Do (CallModule "m" (Some []));
        Do (CallValidated ValidatedKind.service "svc" (ArrayConstructor ["a"]));
        Do (CallValidated ValidatedKind.factory "svc" (FunctionConstructor 0));
        Fail TypeError] |}.

(** [c.js] refers to a module named [constructor], twice. *)
Definition constructorFile : SourceFile.t :=
  {| SourceFile.fileName := "c.js"; SourceFile.fileSize := 1%N;
     SourceFile.script :=
       [Try (CallModule "constructor" None);
        Do (CallModule "constructor" None)] |}.

(** [p.js] declares modules named after array indices between two
    ordinary names. *)
Definition numberedFile : SourceFile.t :=
  {| SourceFile.fileName := "p.js"; SourceFile.fileSize := 1%N;
     SourceFile.script :=
       [Do (CallModule "b" (Some [])); Do (CallModule "10" (Some []));
        Do (CallModule "a" (Some [])); Do (CallModule "2" (Some []))] |}.

(** ** Graph notions the statements use *)

(** A real edge: [a] is a module of the graph, lists [b] as a dependency,
    and [b] is a module of the graph too. *)
Definition edge (modules : ModulesStructure) (a b : string) : Prop :=
  ∃ m, get modules a = Some m ∧ b ∈ ModuleConfig.dependencies m
       ∧ is_Some (get modules b).

(** Consecutive elements are joined by real edges. *)
Fixpoint is_walk (modules : ModulesStructure) (l : list string) : Prop :=
  match l with
  | a :: tl =>
      match tl with
      | b :: _ => edge modules a b ∧ is_walk modules tl
      | [] => True
      end
  | [] => True
  end.

Definition has_cycle (modules : ModulesStructure) : Prop :=
  ∃ a w, is_walk modules (a :: w ++ [a]).

Definition acyclic (modules : ModulesStructure) : Prop := ¬ has_cycle modules.


(** A trail whose last element already occurs earlier: a lead-in path
    followed by a closed walk. *)
Definition ends_in_cycle (trail : list string) : Prop :=
  ∃ pre c mid, trail = pre ++ c :: mid ++ [c].




(** No dependency list names an inherited member (one that is not hidden
    by a module of that name). *)
Definition ordinary_dependencies (modules : ModulesStructure) : Prop :=
  ∀ name m dep,
    get modules name = Some m → dep ∈ ModuleConfig.dependencies m →
    lookup false modules dep ≠ Inherited.

(** Some dependency list names an inherited member. *)
Definition inherited_dependency (modules : ModulesStructure) : Prop :=
  ∃ name m dep,
    get modules name = Some m ∧ dep ∈ ModuleConfig.dependencies m
    ∧ lookup false modules dep = Inherited.

(** The entry [angular.module] writes when [modules[name]] is [module0] (a
    fresh [ModuleConfig] when it was [undefined]). *)
Definition recordedModule (fileName : string) (fileSize : N)
    (module0 : ModuleConfig.t) (dependencies : option (list string))
  : ModuleConfig.t :=
  let module1 :=
    match dependencies with
    | Some deps =>
        ModuleConfig.Build deps (ModuleConfig.files module0)
          (ModuleConfig.size module0) (ModuleConfig.providers module0)
    | None => module0
    end in
  if bool_decide (indexOf fileName (ModuleConfig.files module1) < 0)%Z then
    ModuleConfig.Build (ModuleConfig.dependencies module1)
      (match dependencies with
       | Some _ => [fileName] ++ ModuleConfig.files module1
       | None => ModuleConfig.files module1 ++ [fileName]
       end)
      (ModuleConfig.size module1 + fileSize)%N
      (ModuleConfig.providers module1)
  else module1.

(** ** Further notions *)


(** Each module of the graph lists at least one file. *)
Definition files_nonempty (modules : ModulesStructure) : Prop :=
  ∀ name m, (name, m) ∈ modules → ModuleConfig.files m ≠ [].

(** No provider name occurs twice in a module. *)
Definition providers_unique (modules : ModulesStructure) : Prop :=
  ∀ name m, (name, m) ∈ modules →
    NoDup (ProviderConfig.name <$> ModuleConfig.providers m).

(** The current module, once set, is a module of the graph. *)
Definition current_known (st : Sandbox.t) : Prop :=
  ∀ n, Sandbox.currentModuleName st = Some n →
    is_Some (get (Sandbox.modules st) n).

Definition sandbox_inv (st : Sandbox.t) : Prop :=
  NoDup (keys (Sandbox.modules st))
  ∧ files_nonempty (Sandbox.modules st)
  ∧ providers_unique (Sandbox.modules st)
  ∧ current_known st.

(** Nothing recorded gets lost: every module stays, keeps the files and
    the providers it had (new providers come last) and does not shrink. *)
Definition grows (modules modules' : ModulesStructure) : Prop :=
  ∀ k m, get modules k = Some m →
    ∃ m', get modules' k = Some m'
          ∧ ModuleConfig.files m ⊆ ModuleConfig.files m'
          ∧ ModuleConfig.providers m `prefix_of` ModuleConfig.providers m'
          ∧ (ModuleConfig.size m ≤ ModuleConfig.size m')%N.

Definition sandbox_grows (st st' : Sandbox.t) : Prop :=
  grows (Sandbox.modules st) (Sandbox.modules st')
  ∧ keys (Sandbox.modules st) `sublist_of` keys (Sandbox.modules st')
  ∧ Sandbox.console st `prefix_of` Sandbox.console st'.

(** A call records no declaration: same module names, same current
    module, and for each module the same dependencies, files and size. *)
Definition same_declarations (st st' : Sandbox.t) : Prop :=
  keys (Sandbox.modules st') = keys (Sandbox.modules st)
  ∧ Sandbox.currentModuleName st' = Sandbox.currentModuleName st
  ∧ ∀ k m, get (Sandbox.modules st) k = Some m →
      ∃ m', get (Sandbox.modules st') k = Some m'
            ∧ ModuleConfig.dependencies m' = ModuleConfig.dependencies m
            ∧ ModuleConfig.files m' = ModuleConfig.files m
            ∧ ModuleConfig.size m' = ModuleConfig.size m.

Definition sumN (l : list N) : N := foldr N.add 0%N l.

(** The size of each module is the total of the sizes of its files. *)
Definition sizes_follow (sz : string → N) (modules : ModulesStructure) : Prop :=
  ∀ name m, (name, m) ∈ modules →
    ModuleConfig.size m = sumN (sz <$> ModuleConfig.files m).

(** The concatenation of a list of strings. *)
Definition concatStrings (l : list string) : string :=
  foldr String.append EmptyString l.

(** One edge line for each dependency, of each module in key order, that
    names a module of the graph. *)
Definition dotEdges (modules : ModulesStructure) : list string :=
  '(moduleName, module) ← modules;
  dep ← ModuleConfig.dependencies module;
  if decide (dep ∈ keys modules) then [dotEdge moduleName dep] else [].

(** ** The imports writer *)

(** [file.indexOf(label)]: the first position, or -1. *)
Definition indexOfString (file label : string) : Z :=
  match String.index 0 label file with
  | Some n => Z.of_nat n
  | None => (-1)%Z
  end.

Definition labelNotFound (label filePath : string) : string :=
  "Imports label '" +:+ label +:+ "' was not found in file " +:+ filePath.

(** [insertBetweenLabels] of [writeImports]; [filePath] is the variable of
    the enclosing function that the error messages quote. *)
Definition insertBetweenLabels (filePath startLabel endLabel content file : string)
  : result string :=
  let start := indexOfString file startLabel in
  if bool_decide (start ≤ 0)%Z then
    Throw (Error (labelNotFound startLabel filePath))
  else
    let end_ := indexOfString file endLabel in
    if bool_decide (end_ ≤ 0)%Z then
      Throw (Error (labelNotFound endLabel filePath))
    else
      Ret (String.substring 0 (Z.to_nat start + String.length startLabel) file
           +:+ newline +:+ content
           +:+ String.substring (Z.to_nat end_)
                 (String.length file - Z.to_nat end_) file).

(** ** Basic facts *)

Lemma indexOfFrom_spec i x l :
  (0 ≤ i)%Z →
  (x ∈ l ∧ (i ≤ indexOfFrom i x l)%Z) ∨ ((x ∉ l) ∧ indexOfFrom i x l = (-1)%Z).
Proof.
  revert i. induction l as [|y l IH]; intros i Hi; simpl.
  - right. split; [apply not_elem_of_nil | done].
  - case_decide as Hy.
    + left. subst. split; [left | lia].
    + destruct (IH (i + 1)%Z ltac:(lia)) as [[Hin Hle]|[Hnin Heq]].
      * left. split; [by right | lia].
      * right. split; [|done]. by apply not_elem_of_cons.
Qed.

Lemma indexOf_nonneg x l : (0 ≤ indexOf x l)%Z ↔ x ∈ l.
Proof.
  unfold indexOf.
  destruct (indexOfFrom_spec 0 x l ltac:(lia)) as [[Hin Hle]|[Hnin Heq]];
    split; intros; try done; lia.
Qed.

Lemma get_Some_keys modules k m : get modules k = Some m → k ∈ keys modules.
Proof.
  induction modules as [|[k' m'] rest IH]; simpl; [done|].
  case_decide; intros H'.
  - subst. left.
  - right. by apply IH.
Qed.

Lemma keys_get_is_Some modules k : k ∈ keys modules → is_Some (get modules k).
Proof.
  induction modules as [|[k' m'] rest IH]; simpl.
  - by intros ?%elem_of_nil.
  - intros [->|Hin]%elem_of_cons; case_decide; eauto; done.
Qed.

Lemma get_Some_elem_of modules name m :
  get modules name = Some m → (name, m) ∈ modules.
Proof.
  induction modules as [|[k m'] rest IH]; simpl; [done|].
  case_decide as Hk.
  - intros [= ->]. subst. left.
  - intros H'. right. by apply IH.
Qed.

(** ** Property reads *)

Lemma lookup_Own prototypeDependencies modules name m :
  lookup prototypeDependencies modules name = Own m ↔ get modules name = Some m.
Proof.
  unfold lookup. destruct (get modules name) as [m'|].
  - split; congruence.
  - by destruct (inherited _ _).
Qed.

Lemma lookup_Inherited prototypeDependencies modules name :
  lookup prototypeDependencies modules name = Inherited
  ↔ get modules name = None ∧ inherited prototypeDependencies name = true.
Proof.
  unfold lookup. destruct (get modules name) as [m'|].
  - split; [done|]. by intros [? _].
  - destruct (inherited _ _); split; try done. by intros [_ ?].
Qed.


Lemma ordinary_no_inherited modules :
  ordinary_dependencies modules → ¬ inherited_dependency modules.
Proof. intros Hord (name & m & dep & Hin & Hdep & Hl). by eapply Hord. Qed.

Lemma forEach_Ret {A} (f : A → result unit) l u :
  forEach f l = Ret u → ∀ x, x ∈ l → ∃ u', f x = Ret u'.
Proof.
  induction l as [|y l IH]; simpl; intros H x Hx.
  - by apply elem_of_nil in Hx.
  - destruct (f y) eqn:Hy; try done.
    apply elem_of_cons in Hx as [->|Hx]; eauto.
Qed.

Lemma forEach_Throw {A} (f : A → result unit) l e :
  forEach f l = Throw e → ∃ x, x ∈ l ∧ f x = Throw e.
Proof.
  induction l as [|y l IH]; simpl; intros H; [done|].
  destruct (f y) eqn:Hy; try done.
  - destruct (IH H) as (x & Hx & Hfx). exists x. split; [by right | done].
  - exists y. split; [left | congruence].
Qed.

Lemma forEach_Exhausted {A} (f : A → result unit) l :
  forEach f l = Exhausted → ∃ x, x ∈ l ∧ f x = Exhausted.
Proof.
  induction l as [|y l IH]; simpl; intros H; [done|].
  destruct (f y) eqn:Hy; try done.
  - destruct (IH H) as (x & Hx & Hfx). exists x. split; [by right | done].
  - exists y. split; [left | done].
Qed.

(** ** Walks *)

Lemma is_walk_cons modules a b l :
  is_walk modules (a :: b :: l) ↔ edge modules a b ∧ is_walk modules (b :: l).
Proof. done. Qed.


Lemma is_walk_snoc modules l a b :
  is_walk modules (l ++ [a]) → edge modules a b →
  is_walk modules ((l ++ [a]) ++ [b]).
Proof.
  intros Hw He. induction l as [|x l IH]; simpl.
  - done.
  - simpl in Hw. destruct (l ++ [a]) as [|y r] eqn:E.
    + by destruct l.
    + destruct Hw as [Hxy Hw]. simpl. split; [done|]. by apply IH.
Qed.


(** Every name on a walk that ends in a module of the graph is a module
    of the graph. *)
Lemma walk_in_graph modules trail module :
  is_walk modules (trail ++ [module]) → is_Some (get modules module) →
  ∀ x, x ∈ trail ++ [module] → is_Some (get modules x).
Proof.
  intros Hw Hm. induction trail as [|a trail IH]; simpl in *.
  - by intros x ->%list_elem_of_singleton.
  - destruct (trail ++ [module]) as [|b rest] eqn:E; [by destruct trail|].
    destruct Hw as [(ma & Ha & _) Hw].
    intros x [->|Hx]%elem_of_cons; [by eexists|]. by apply IH.
Qed.

(** ** The cycle detector: termination and outcome *)

Section CycleDetectorFacts.
Variable modules : ModulesStructure.

Lemma trail_length_bound (trail : list string) :
  NoDup trail → trail ⊆ keys modules → length trail ≤ length modules.
Proof.
  intros Hnd Hsub.
  replace (length modules) with (length (keys modules))
    by (unfold keys; by rewrite length_fmap).
  apply submseteq_length, NoDup_submseteq; [done|]. apply Hsub.
Qed.

Lemma doFind_S fuel module trail :
  doFind modules (S fuel) module trail =
  if bool_decide (0 ≤ indexOf module trail)%Z then
    Throw (CRef (trail ++ [module]))
  else
    match get modules module with
    | None => Throw TypeError
    | Some m =>
        if bool_decide (0 < length (ModuleConfig.dependencies m)) then
          forEach (fun dep =>
                     match lookup false modules dep with
                     | Own _ | Inherited =>
                         doFind modules fuel dep (trail ++ [module])
                     | Undefined => Ret tt
                     end) (ModuleConfig.dependencies m)
        else Ret tt
    end.
Proof. done. Qed.

(** On a name that is no module of the graph the search does not return:
    it reads [dependencies] of something that has none. *)
Lemma doFind_not_module fuel module trail u :
  get modules module = None → doFind modules fuel module trail ≠ Ret u.
Proof.
  intros Hnone. destruct fuel as [|fuel]; [done|].
  rewrite doFind_S, Hnone. by case_bool_decide.
Qed.

(** The recursion depth is bounded: the trail never repeats a name and
    holds only modules of the graph. *)
Lemma doFind_terminates fuel module trail :
  NoDup trail → trail ⊆ keys modules →
  length modules < fuel + length trail →
  doFind modules fuel module trail ≠ Exhausted.
Proof.
  revert module trail.
  induction fuel as [|fuel IH]; intros module trail Hnd Hsub Hlen.
  - pose proof (trail_length_bound trail Hnd Hsub). lia.
  - rewrite doFind_S. case_bool_decide as Hidx; [done|].
    rewrite indexOf_nonneg in Hidx.
    destruct (get modules module) as [m|] eqn:Hm; [|done].
    case_bool_decide; [|done].
    intros (dep & Hdep & Hex)%forEach_Exhausted.
    assert (doFind modules fuel dep (trail ++ [module]) = Exhausted) as Hex'
      by (by destruct (lookup false modules dep)).
    revert Hex'. apply IH.
    + apply NoDup_app. split_and!; [done| |apply NoDup_singleton].
      intros x Hx ->%list_elem_of_singleton. done.
    + intros x [Hx| ->%list_elem_of_singleton]%elem_of_app; [by apply Hsub|].
      by eapply get_Some_keys.
    + rewrite length_app. simpl. lia.
Qed.

(** Called on a module of the graph, what [doFind] throws is a trail of
    real edges that ends in a closed walk, or the [TypeError] of entering
    an inherited member that some dependency list names. *)
Lemma doFind_Throw fuel module trail e :
  is_Some (get modules module) →
  is_walk modules (trail ++ [module]) →
  doFind modules fuel module trail = Throw e →
  (e = TypeError ∧ inherited_dependency modules)
  ∨ ∃ t, e = CRef t ∧ ends_in_cycle t ∧ is_walk modules t.
Proof.
  revert module trail.
  induction fuel as [|fuel IH]; intros module trail [m Hm] Hw; [done|].
  rewrite doFind_S. case_bool_decide as Hidx.
  - intros [= <-]. rewrite indexOf_nonneg in Hidx. right.
    exists (trail ++ [module]). split_and!; [done| |done].
    apply list_elem_of_split in Hidx as (pre & mid & ->).
    exists pre, module, mid. by rewrite <- app_assoc.
  - rewrite Hm. case_bool_decide; [|done].
    intros (dep & Hdep & Hex)%forEach_Throw.
    destruct (lookup false modules dep) as [md| |] eqn:Hl; [| |done].
    + apply lookup_Own in Hl.
      eapply IH; [by eexists| |exact Hex].
      apply is_walk_snoc; [done|]. exists m. rewrite Hl. eauto.
    + left. split; [|by exists module, m, dep].
      apply lookup_Inherited in Hl as [Hnone _].
      destruct fuel as [|fuel]; [done|].
      rewrite doFind_S, Hnone in Hex. case_bool_decide as Hin; [|congruence].
      rewrite indexOf_nonneg in Hin.
      destruct (walk_in_graph modules trail module Hw ltac:(by eexists) dep Hin)
        as [md Hmd]. congruence.
Qed.

Lemma doFind_Ret_fresh fuel module trail u :
  doFind modules fuel module trail = Ret u → module ∉ trail.
Proof.
  destruct fuel; simpl; [done|].
  case_bool_decide as Hidx; [done|]. by rewrite indexOf_nonneg in Hidx.
Qed.

Lemma doFind_Ret_edge fuel module trail u dep :
  doFind modules fuel module trail = Ret u → edge modules module dep →
  ∃ fuel' u', fuel = S fuel' ∧
    doFind modules fuel' dep (trail ++ [module]) = Ret u'.
Proof.
  destruct fuel as [|fuel]; [done|]. rewrite doFind_S.
  case_bool_decide; [done|].
  intros Hret (m & Hm & Hdep & [md Hmd]). rewrite Hm in Hret.
  case_bool_decide as Hlen.
  - eapply forEach_Ret in Hret as [u' Hu']; [|exact Hdep].
    apply (lookup_Own false) in Hmd. rewrite Hmd in Hu'. eauto.
  - destruct (ModuleConfig.dependencies m); [by apply elem_of_nil in Hdep|].
    simpl in Hlen. lia.
Qed.

(** Where the search below a module returned, none of its dependencies is
    an inherited member. *)
Lemma doFind_Ret_ordinary fuel module trail u m dep :
  doFind modules fuel module trail = Ret u →
  get modules module = Some m → dep ∈ ModuleConfig.dependencies m →
  lookup false modules dep ≠ Inherited.
Proof.
  destruct fuel as [|fuel]; [done|]. rewrite doFind_S.
  case_bool_decide; [done|]. intros Hret Hm Hdep Hl. rewrite Hm in Hret.
  case_bool_decide as Hlen.
  - eapply forEach_Ret in Hret as [u' Hu']; [|exact Hdep].
    rewrite Hl in Hu'. apply lookup_Inherited in Hl as [Hnone _].
    by eapply doFind_not_module.
  - destruct (ModuleConfig.dependencies m); [by apply elem_of_nil in Hdep|].
    simpl in Hlen. lia.
Qed.

(** A normal return means the whole search below [module] met no name
    twice. *)
Lemma doFind_Ret_walk fuel module trail u w :
  doFind modules fuel module trail = Ret u →
  is_walk modules (module :: w) →
  ∀ x, x ∈ w → x ∉ trail ++ [module].
Proof.
  revert module trail u w.
  induction fuel as [|fuel IH]; intros module trail u w Hret Hw x Hx; [done|].
  destruct w as [|d w]; [by apply elem_of_nil in Hx|].
  apply is_walk_cons in Hw as [He Hw].
  destruct (doFind_Ret_edge _ _ _ _ _ Hret He) as (fuel' & u' & [= <-] & Hd).
  apply elem_of_cons in Hx as [->|Hx].
  - by eapply doFind_Ret_fresh.
  - intros Hin. eapply IH; [exact Hd|exact Hw|exact Hx|].
    apply elem_of_app. by left.
Qed.

Lemma doFind_Ret_no_cycle fuel a w u :
  doFind modules fuel a [] = Ret u → ¬ is_walk modules (a :: w ++ [a]).
Proof.
  intros Hret Hw.
  eapply (doFind_Ret_walk _ _ _ _ _ Hret Hw a).
  - apply elem_of_app. right. apply list_elem_of_singleton. done.
  - simpl. left.
Qed.




(** The loop over the module names: with enough fuel it ends in one of
    three ways: [None] after every search returned, the first thrown
    trail, or the [TypeError] of entering an inherited member. *)
Lemma findLoop_outcome fuel names :
  names ⊆ keys modules → length modules < fuel →
  (findLoop modules fuel names = Ret None
     ∧ ∀ n, n ∈ names → ∃ u, doFind modules fuel n [] = Ret u)
  ∨ (∃ t, findLoop modules fuel names = Ret (Some t)
       ∧ ends_in_cycle t ∧ is_walk modules t)
  ∨ (findLoop modules fuel names = Throw TypeError
       ∧ inherited_dependency modules).
Proof.
  intros Hsub Hfuel. induction names as [|n names IH]; simpl.
  - left. split; [done|]. by intros n ?%elem_of_nil.
  - assert (n ∈ keys modules) as Hn by (apply Hsub; left).
    assert (names ⊆ keys modules) as Hsub' by (intros x Hx; apply Hsub; by right).
    destruct (doFind modules fuel n []) as [u|e|] eqn:Hd.
    + destruct (IH Hsub') as [[Hl Hall]|Hother]; [left|by right].
      split; [done|]. intros x [->|Hx]%elem_of_cons; eauto.
    + right.
      destruct (doFind_Throw fuel n [] e) as [[-> Hinh]|(t & -> & Hc & Hw)];
        [by apply keys_get_is_Some|done|done| |]; [by right|left; eauto].
    + exfalso. revert Hd. apply doFind_terminates.
      * apply NoDup_nil_2.
      * by intros x ?%elem_of_nil.
      * simpl. lia.
Qed.
End CycleDetectorFacts.

Lemma findCircularReferenceFuel_outcome modules fuel :
  length modules < fuel →
  (findCircularReferenceFuel fuel modules = Ret None
     ∧ ∀ n, n ∈ keys modules → ∃ u, doFind modules fuel n [] = Ret u)
  ∨ (∃ t, findCircularReferenceFuel fuel modules = Ret (Some t)
       ∧ ends_in_cycle t ∧ is_walk modules t)
  ∨ (findCircularReferenceFuel fuel modules = Throw TypeError
       ∧ inherited_dependency modules).
Proof. intros. by apply findLoop_outcome. Qed.

Lemma walk_head_in_graph modules a b l :
  is_walk modules (a :: b :: l) → a ∈ keys modules.
Proof. intros [(m & Hm & _) _]. by eapply get_Some_keys. Qed.

Lemma no_trail_acyclic modules fuel :
  length modules < fuel →
  findCircularReferenceFuel fuel modules = Ret None → acyclic modules.
Proof.
  intros Hfuel Hnone (a & w & Hw).
  destruct (findCircularReferenceFuel_outcome modules fuel Hfuel)
    as [[_ Hall]|[(t & Ht & _)|[Ht _]]]; [|congruence|congruence].
  assert (a ∈ keys modules) as Ha.
  { destruct w as [|b w].
    - exact (walk_head_in_graph modules a a [] Hw).
    - exact (walk_head_in_graph modules a b (w ++ [a]) Hw). }
  destruct (Hall a Ha) as [u Hu].
  by eapply doFind_Ret_no_cycle.
Qed.


(** On a graph with a cycle the search returns a trail, unless it enters an
    inherited member before it meets a name twice. *)
Lemma has_cycle_outcome modules fuel :
  length modules < fuel → has_cycle modules →
  (∃ t, findCircularReferenceFuel fuel modules = Ret (Some t))
  ∨ (findCircularReferenceFuel fuel modules = Throw TypeError
     ∧ inherited_dependency modules).
Proof.
  intros Hfuel Hc.
  destruct (findCircularReferenceFuel_outcome modules fuel Hfuel)
    as [[H _]|[(t & Ht & _)|Hinh]]; [|eauto|by right].
  exfalso. by eapply no_trail_acyclic.
Qed.


(** ** De-duplication keeps first occurrences *)












(** ** The resolver: what it returns, and that it returns *)

Section ResolverFacts.
Variable modules : ModulesStructure.









End ResolverFacts.


(** ** Reading and writing the graph *)

Lemma get_replaceEntry_eq modules name m :
  is_Some (get modules name) → get (replaceEntry modules name m) name = Some m.
Proof.
  induction modules as [|[k m'] rest IH]; simpl; [by intros [? ?]|].
  case_decide as Hk; simpl.
  - intros _. by case_decide.
  - intros H'. case_decide; [done|]. by apply IH.
Qed.

Lemma get_replaceEntry_ne modules name m other :
  name ≠ other → get (replaceEntry modules name m) other = get modules other.
Proof.
  intros Hne. induction modules as [|[k m'] rest IH]; simpl; [done|].
  case_decide as Hk; simpl.
  - subst k. by case_decide.
  - case_decide; [done|apply IH].
Qed.

Lemma keys_replaceEntry modules name m :
  keys (replaceEntry modules name m) = keys modules.
Proof.
  unfold keys. induction modules as [|[k m'] rest IH]; simpl; [done|].
  case_decide; [done|]. csimpl. f_equal. by apply IH.
Qed.

Lemma elem_of_replaceEntry modules name m k m' :
  (k, m') ∈ replaceEntry modules name m →
  (k = name ∧ m' = m) ∨ (k, m') ∈ modules.
Proof.
  induction modules as [|[k0 m0] rest IH]; simpl; [by intros ?%elem_of_nil|].
  case_decide as Hk.
  - intros [[= -> ->]|Hin]%elem_of_cons; [by left|]. right. by right.
  - intros [[= -> ->]|Hin]%elem_of_cons; [right; left|].
    destruct (IH Hin) as [?|?]; [by left|]. right. by right.
Qed.

Lemma get_insertIndexed_eq index modules name m :
  get modules name = None →
  get (insertIndexed index name m modules) name = Some m.
Proof.
  induction modules as [|[k m'] rest IH]; simpl.
  - intros _. by case_decide.
  - case_decide as Hk; [done|]. intros Hnone.
    destruct (arrayIndex k) as [j|]; [destruct (j <? index)%N|]; simpl.
    + case_decide; [done|]. by apply IH.
    + by case_decide.
    + by case_decide.
Qed.

Lemma get_insertIndexed_ne index modules name m other :
  name ≠ other →
  get (insertIndexed index name m modules) other = get modules other.
Proof.
  intros Hne. induction modules as [|[k m'] rest IH]; simpl.
  - by case_decide.
  - destruct (arrayIndex k) as [j|]; [destruct (j <? index)%N|]; simpl.
    + case_decide; [done|apply IH].
    + by rewrite (decide_False (P := name = other)).
    + by rewrite (decide_False (P := name = other)).
Qed.

(** The new key is put somewhere between the old ones, which keep their
    order. *)
Lemma keys_insertIndexed index modules name m :
  ∃ before after,
    keys modules = before ++ after
    ∧ keys (insertIndexed index name m modules) = before ++ name :: after.
Proof.
  unfold keys. induction modules as [|[k m'] rest IH]; simpl.
  - by exists [], [].
  - destruct (arrayIndex k) as [j|]; [destruct (j <? index)%N|].
    + destruct IH as (before & after & H1 & H2).
      exists (k :: before), after. csimpl. by rewrite H1, H2.
    + by exists [], (k :: rest.*1).
    + by exists [], (k :: rest.*1).
Qed.

Lemma elem_of_insertIndexed index modules name m k m' :
  (k, m') ∈ insertIndexed index name m modules →
  (k = name ∧ m' = m) ∨ (k, m') ∈ modules.
Proof.
  induction modules as [|[k0 m0] rest IH]; simpl.
  - intros [= -> ->]%list_elem_of_singleton. by left.
  - destruct (arrayIndex k0) as [j|]; [destruct (j <? index)%N|].
    + intros [[= -> ->]|Hin]%elem_of_cons; [right; left|].
      destruct (IH Hin) as [?|?]; [by left|]. right. by right.
    + intros [[= -> ->]|Hin]%elem_of_cons; [by left|by right].
    + intros [[= -> ->]|Hin]%elem_of_cons; [by left|by right].
Qed.

Lemma get_set_eq modules name m : get (set modules name m) name = Some m.
Proof.
  unfold set. destruct (get modules name) as [m0|] eqn:Hm.
  - apply get_replaceEntry_eq. by eexists.
  - destruct (arrayIndex name); [by apply get_insertIndexed_eq|].
    induction modules as [|[k m'] rest IH]; simpl in *; [by case_decide|].
    case_decide; [done|]. by apply IH.
Qed.

Lemma get_app_singleton_ne modules name m other :
  name ≠ other → get (modules ++ [(name, m)]) other = get modules other.
Proof.
  intros Hne. induction modules as [|[k m'] rest IH]; simpl.
  - by case_decide.
  - by case_decide.
Qed.

Lemma get_set_ne modules name m other :
  name ≠ other → get (set modules name m) other = get modules other.
Proof.
  intros Hne. unfold set. destruct (get modules name) as [m0|].
  - by apply get_replaceEntry_ne.
  - destruct (arrayIndex name);
      [by apply get_insertIndexed_ne|by apply get_app_singleton_ne].
Qed.

Lemma keys_set_present modules name m :
  is_Some (get modules name) → keys (set modules name m) = keys modules.
Proof. intros [m0 Hm]. unfold set. rewrite Hm. apply keys_replaceEntry. Qed.

Lemma keys_set_absent modules name m :
  get modules name = None →
  ∃ before after,
    keys modules = before ++ after
    ∧ keys (set modules name m) = before ++ name :: after.
Proof.
  intros Hm. unfold set. rewrite Hm.
  destruct (arrayIndex name); [apply keys_insertIndexed|].
  exists (keys modules), []. unfold keys. by rewrite fmap_app, app_nil_r.
Qed.

Lemma elem_of_set modules name m k m' :
  (k, m') ∈ set modules name m → (k = name ∧ m' = m) ∨ (k, m') ∈ modules.
Proof.
  unfold set. destruct (get modules name) as [m0|].
  - apply elem_of_replaceEntry.
  - destruct (arrayIndex name); [apply elem_of_insertIndexed|].
    intros [Hin|[= -> ->]%list_elem_of_singleton]%elem_of_app; [by right|by left].
Qed.

Lemma get_None_not_keys modules k : get modules k = None → k ∉ keys modules.
Proof. intros Hnone [m Hm]%keys_get_is_Some. congruence. Qed.

Lemma NoDup_keys_set modules k m :
  NoDup (keys modules) → NoDup (keys (set modules k m)).
Proof.
  intros Hnd. destruct (get modules k) as [m0|] eqn:Hk.
  - by rewrite keys_set_present by by eexists.
  - destruct (keys_set_absent modules k m Hk) as (before & after & H1 & ->).
    apply get_None_not_keys in Hk. rewrite H1 in Hk, Hnd.
    rewrite <- Permutation_middle. by apply NoDup_cons.
Qed.

Lemma keys_set_sublist modules k m :
  keys modules `sublist_of` keys (set modules k m).
Proof.
  destruct (get modules k) as [m0|] eqn:Hk.
  - by rewrite keys_set_present by by eexists.
  - destruct (keys_set_absent modules k m Hk) as (before & after & -> & ->).
    apply sublist_app; [done|]. by apply sublist_cons.
Qed.

Lemma indexOf_negative x l : (indexOf x l < 0)%Z ↔ x ∉ l.
Proof.
  unfold indexOf.
  destruct (indexOfFrom_spec 0 x l ltac:(lia)) as [[Hin Hle]|[Hnin Heq]];
    split; intros; try done; lia.
Qed.

Lemma filter_eq_length_1 (x : string) (l : list string) :
  NoDup l → x ∈ l → length (filter (λ y, y = x) l) = 1.
Proof.
  induction l as [|y l IH]; intros Hnd Hin; [by apply elem_of_nil in Hin|].
  apply NoDup_cons in Hnd as [Hy Hnd]. rewrite filter_cons.
  case_decide as Hyx.
  - subst y. simpl. f_equal.
    assert (filter (λ y, y = x) l = []) as ->; [|done].
    apply elem_of_nil_inv. intros z [-> Hz]%list_elem_of_filter. done.
  - apply elem_of_cons in Hin as [->|Hin]; [done|]. by apply IH.
Qed.

(** ** What one [angular.module] call does *)

(** The entry that is written, from the entry before it. *)
Lemma recordedModule_spec fileName fileSize m dependencies :
  let m' := recordedModule fileName fileSize m dependencies in
  ModuleConfig.dependencies m'
  = default (ModuleConfig.dependencies m) dependencies
  ∧ ModuleConfig.providers m' = ModuleConfig.providers m
  ∧ (fileName ∈ ModuleConfig.files m →
       ModuleConfig.files m' = ModuleConfig.files m
       ∧ ModuleConfig.size m' = ModuleConfig.size m)
  ∧ (fileName ∉ ModuleConfig.files m →
       ModuleConfig.files m'
       = match dependencies with
         | Some _ => fileName :: ModuleConfig.files m
         | None => ModuleConfig.files m ++ [fileName]
         end
       ∧ ModuleConfig.size m' = (ModuleConfig.size m + fileSize)%N).
Proof.
  unfold recordedModule. destruct dependencies as [deps|]; simpl.
  - case_bool_decide as Hidx; rewrite indexOf_negative in Hidx; simpl;
      split_and!; try done; intros Hin; try done.
  - case_bool_decide as Hidx; rewrite indexOf_negative in Hidx; simpl;
      split_and!; try done; intros Hin; try done.
Qed.

(** The call either throws, on the name of an inherited member, and
    leaves the graph, the current module and the console as they are; or
    it writes one entry and makes the module current. *)
Lemma angular_module_cases fileName fileSize st name dependencies :
  (lookup (Sandbox.prototypeDependencies st) (Sandbox.modules st) name
   = Inherited
   ∧ angular_module fileName fileSize st name dependencies
     = ({| Sandbox.modules := Sandbox.modules st;
           Sandbox.currentModuleName := Sandbox.currentModuleName st;
           Sandbox.console := Sandbox.console st;
           Sandbox.prototypeDependencies :=
             Sandbox.prototypeDependencies st
             || (bool_decide (name = "__proto__")
                 && bool_decide (is_Some dependencies)) |}, Some TypeError))
  ∨ (lookup (Sandbox.prototypeDependencies st) (Sandbox.modules st) name
     ≠ Inherited
     ∧ angular_module fileName fileSize st name dependencies
       = ({| Sandbox.modules :=
               set (Sandbox.modules st) name
                 (recordedModule fileName fileSize
                    (default ModuleConfig.new (get (Sandbox.modules st) name))
                    dependencies);
             Sandbox.currentModuleName := Some name;
             Sandbox.console := Sandbox.console st;
             Sandbox.prototypeDependencies :=
               Sandbox.prototypeDependencies st |}, None)).
Proof.
  unfold angular_module, lookup.
  destruct (get (Sandbox.modules st) name) as [m|]; [by right|].
  destruct (inherited _ _); [by left|by right].
Qed.

Lemma existsb_provider_name name providers :
  existsb (fun provider => bool_decide (ProviderConfig.name provider = name))
    providers = false →
  name ∉ ProviderConfig.name <$> providers.
Proof.
  induction providers as [|p ps IH]; simpl; [intros; apply not_elem_of_nil|].
  intros [Hp Hps]%orb_false_elim. apply bool_decide_eq_false in Hp.
  apply not_elem_of_cons. split; [done|by apply IH].
Qed.

(** [validateConstructor] either writes one line and records nothing, or
    throws, or appends one provider to the current module. *)
Lemma validateConstructor_cases fileName st name constructor :
  (∃ line,
     validateConstructor fileName st name constructor
     = (Sandbox.error st line, None))
  ∨ (validateConstructor fileName st name constructor = (st, Some TypeError)
     ∧ ∃ current, Sandbox.currentModuleName st = Some current
                  ∧ get (Sandbox.modules st) current = None)
  ∨ (∃ current m,
       Sandbox.currentModuleName st = Some current
       ∧ current ≠ EmptyString
       ∧ get (Sandbox.modules st) current = Some m
       ∧ (name ∉ ProviderConfig.name <$> ModuleConfig.providers m)
       ∧ (constructor ≠ OtherConstructor)
       ∧ validateConstructor fileName st name constructor
         = ({| Sandbox.modules :=
                 set (Sandbox.modules st) current
                   (ModuleConfig.Build (ModuleConfig.dependencies m)
                      (ModuleConfig.files m) (ModuleConfig.size m)
                      (ModuleConfig.providers m
                       ++ [{| ProviderConfig.name := name;
                              ProviderConfig.injects :=
                                match constructor with
                                | ArrayConstructor injected => injected
                                | _ => []
                                end |}]));
               Sandbox.currentModuleName := Sandbox.currentModuleName st;
               Sandbox.console := Sandbox.console st;
               Sandbox.prototypeDependencies :=
                 Sandbox.prototypeDependencies st |}, None)).
Proof.
  unfold validateConstructor.
  destruct (negb _ && negb _) eqn:Hready; [left; by eexists|].
  destruct (noCurrentModule (Sandbox.currentModuleName st)) eqn:Hcur;
    [left; by eexists|].
  destruct (Sandbox.currentModuleName st) as [current|] eqn:Hc; [|done].
  simpl in *. apply bool_decide_eq_false in Hcur.
  destruct (get (Sandbox.modules st) current) as [m|] eqn:Hm.
  - destruct (existsb _ _) eqn:Hex; [left; by eexists|].
    right. right. exists current, m. split_and!; try done.
    + by apply existsb_provider_name.
    + by intros ->.
  - right. left. split; [done|]. by exists current.
Qed.

(** ** Properties kept by every call are kept by the scan *)

Section Propagation.
Variable okFile : string → N → Prop.
Variable P : Sandbox.t → Prop.
Hypothesis P_module :
  ∀ fileName fileSize st name dependencies,
    okFile fileName fileSize → P st →
    P (angular_module fileName fileSize st name dependencies).1.
Hypothesis P_validate :
  ∀ fileName st name constructor,
    P st → P (validateConstructor fileName st name constructor).1.
Hypothesis P_error : ∀ st line, P st → P (Sandbox.error st line).

Lemma kept_by_provider fileName st name constructor constructed :
  P st → P (angular_module_provider fileName st name constructor constructed).1.
Proof.
  intros HP. unfold angular_module_provider.
  assert (∃ st1 thrown,
    match constructor with
    | ArrayConstructor _ =>
        validateConstructor fileName st (name +:+ "Provider") constructor
    | _ => (st, None)
    end = (st1, thrown) ∧ P st1) as (st1 & thrown & -> & HP1).
  { destruct constructor; try by (eexists _, _).
    pose proof (P_validate fileName st (name +:+ "Provider")
                  (ArrayConstructor injected) HP) as H1.
    destruct (validateConstructor _ _ _ _) as [st1 thrown]. by eexists _, _. }
  destruct thrown; [done|].
  destruct constructed; simpl; auto.
Qed.

Lemma kept_by_applyCall fileName fileSize st call :
  okFile fileName fileSize → P st → P (applyCall fileName fileSize st call).1.
Proof.
  intros Hok HP. destruct call; simpl; auto using kept_by_provider.
Qed.

Lemma kept_by_runInContext fileName fileSize st script :
  okFile fileName fileSize → P st →
  P (runInContext fileName fileSize st script).1.
Proof.
  intros Hok. revert st.
  induction script as [|[call|call|e] rest IH]; intros st HP; simpl;
    [done| | |done].
  - pose proof (kept_by_applyCall fileName fileSize st call Hok HP) as H1.
    destruct (applyCall fileName fileSize st call) as [st' [e|]]; [done|].
    by apply IH.
  - apply IH. by apply kept_by_applyCall.
Qed.

Lemma processFile_eq st file :
  processFile st file
  = (runInContext (SourceFile.fileName file) (SourceFile.fileSize file) st
       (SourceFile.script file)).1.
Proof. unfold processFile. by destruct (runInContext _ _ _ _) as [st' [e|]]. Qed.

Lemma kept_by_processFiles st files :
  (∀ file, file ∈ files →
     okFile (SourceFile.fileName file) (SourceFile.fileSize file)) →
  P st → P (processFiles st files).
Proof.
  revert st. induction files as [|file files IH]; intros st Hok HP; [done|].
  apply IH; [intros f Hf; apply Hok; by right|].
  rewrite processFile_eq. apply kept_by_runInContext; [|done].
  apply Hok. left.
Qed.

Lemma kept_by_scan st dirs :
  (∀ dir file, dir ∈ dirs → file ∈ dir →
     okFile (SourceFile.fileName file) (SourceFile.fileSize file)) →
  P st → P (foldl processFiles st dirs).
Proof.
  revert st. induction dirs as [|dir dirs IH]; intros st Hok HP; [done|].
  apply IH; [intros d f Hd; apply Hok; by right|].
  apply kept_by_processFiles; [|done]. intros f. apply Hok. left.
Qed.
End Propagation.

(** ** The scan *)



(** ** File lists without repetition, owners with a name *)

Lemma angular_module_files_unique fileName fileSize st name dependencies :
  files_unique (Sandbox.modules st) →
  files_unique
    (Sandbox.modules (angular_module fileName fileSize st name dependencies).1).
Proof.
  intros Hinv.
  destruct (angular_module_cases fileName fileSize st name dependencies)
    as [[_ ->]|[_ ->]]; [done|]. simpl.
  intros k m' [[-> ->]|Hin]%elem_of_set; [|by eapply Hinv].
  set (m0 := default ModuleConfig.new (get (Sandbox.modules st) name)).
  destruct (recordedModule_spec fileName fileSize m0 dependencies)
    as (_ & _ & Hold & Hnew).
  assert (NoDup (ModuleConfig.files m0)) as Hnd.
  { unfold m0. destruct (get (Sandbox.modules st) name) as [m1|] eqn:Hm1; simpl.
    - eapply Hinv. by apply get_Some_elem_of.
    - apply NoDup_nil_2. }
  destruct (decide (fileName ∈ ModuleConfig.files m0)) as [Hin|Hnin].
  - destruct (Hold Hin) as [-> _]. done.
  - destruct (Hnew Hnin) as [-> _]. destruct dependencies.
    + by apply NoDup_cons.
    + apply NoDup_app. split_and!; [done| |apply NoDup_singleton].
      by intros x Hx ->%list_elem_of_singleton.
Qed.

Lemma angular_module_owners_named fileName fileSize st name dependencies :
  owners_named (Sandbox.modules st) →
  owners_named
    (Sandbox.modules (angular_module fileName fileSize st name dependencies).1).
Proof.
  intros Hinv.
  destruct (angular_module_cases fileName fileSize st name dependencies)
    as [[_ ->]|[_ ->]]; [done|]. simpl.
  intros k m' [[-> ->]|Hin]%elem_of_set; [|by eapply Hinv].
  destruct (recordedModule_spec fileName fileSize
              (default ModuleConfig.new (get (Sandbox.modules st) name))
              dependencies) as (_ & -> & _).
  destruct (get (Sandbox.modules st) name) as [m0|] eqn:Hm0; simpl; [|done].
  eapply Hinv. by apply get_Some_elem_of.
Qed.

Lemma validateConstructor_invariants fileName st name constructor :
  files_unique (Sandbox.modules st) ∧ owners_named (Sandbox.modules st) →
  files_unique (Sandbox.modules (validateConstructor fileName st name constructor).1)
  ∧ owners_named
      (Sandbox.modules (validateConstructor fileName st name constructor).1).
Proof.
  intros [Hf Ho].
  destruct (validateConstructor_cases fileName st name constructor)
    as [[line ->]|[[-> _]|(current & m & _ & Hne & Hm & _ & _ & ->)]];
    [done|done|].
  simpl. apply get_Some_elem_of in Hm.
  split; intros k m' [[-> ->]|Hin]%elem_of_set; simpl; eauto.
Qed.

(** Every graph the builder returns satisfies the invariants. *)
Lemma buildModulesStructure_invariants dirs :
  files_unique (buildModulesStructure dirs)
  ∧ owners_named (buildModulesStructure dirs).
Proof.
  unfold buildModulesStructure.
  apply (kept_by_scan (fun _ _ => True)
           (fun st => files_unique (Sandbox.modules st)
                      ∧ owners_named (Sandbox.modules st))); [| |done|done|].
  - intros fileName fileSize st name dependencies _ [Hf Ho].
    split; [by apply angular_module_files_unique
           |by apply angular_module_owners_named].
  - intros. by apply validateConstructor_invariants.
  - split; intros k m Hin; by apply elem_of_nil in Hin.
Qed.

(** ** The provider index is "last writer wins" *)

Lemma declarations_cons moduleName module rest :
  declarations ((moduleName, module) :: rest)
  = ((fun provider => (ProviderConfig.name provider, moduleName))
       <$> ModuleConfig.providers module) ++ declarations rest.
Proof. done. Qed.

Lemma moduleByProvider_declarations modules :
  moduleByProvider modules
  = foldl (fun prev d => indexWrite prev d.1 d.2) ∅ (declarations modules).
Proof.
  unfold moduleByProvider. generalize (∅ : ProviderIndex).
  induction modules as [|[moduleName module] rest IH]; intros acc; [done|].
  rewrite declarations_cons, foldl_app, foldl_fmap. simpl. apply IH.
Qed.

Lemma foldl_indexWrite_lookup (l : list (string * string)) (acc : ProviderIndex) i :
  i ≠ "__proto__" →
  foldl (fun prev d => indexWrite prev d.1 d.2) acc l !! i
  = match last (filter (fun d => d.1 = i) l) with
    | Some d => Some d.2
    | None => acc !! i
    end.
Proof.
  intros Hi. revert acc. induction l as [|d l IH]; intros acc; simpl; [done|].
  rewrite IH, filter_cons. unfold indexWrite. case_decide as Hd.
  - rewrite last_cons. destruct (last (filter _ l)); [done|].
    rewrite bool_decide_eq_false_2 by congruence.
    rewrite <- Hd. apply lookup_insert_eq.
  - destruct (last (filter _ l)); [done|].
    case_bool_decide; [done|]. by apply lookup_insert_ne.
Qed.

(** Nothing is ever written under [__proto__]. *)
Lemma foldl_indexWrite_proto (l : list (string * string)) (acc : ProviderIndex) :
  acc !! "__proto__" = None →
  foldl (fun prev d => indexWrite prev d.1 d.2) acc l !! "__proto__" = None.
Proof.
  revert acc. induction l as [|d l IH]; intros acc Hacc; simpl; [done|].
  apply IH. unfold indexWrite. case_bool_decide as Hd; [done|].
  rewrite lookup_insert_ne; done.
Qed.

Lemma moduleByProvider_lastOwner modules inject :
  inject ≠ "__proto__" →
  moduleByProvider modules !! inject = lastOwner modules inject.
Proof.
  intros Hi. rewrite moduleByProvider_declarations, foldl_indexWrite_lookup by done.
  unfold lastOwner. by destruct (last _).
Qed.

Lemma existsb_eq_elem_of (x : string) (l : list string) :
  existsb (fun y => bool_decide (y = x)) l = bool_decide (x ∈ l).
Proof.
  induction l as [|y l IH]; cbn [existsb].
  - symmetry. apply bool_decide_eq_false_2, not_elem_of_nil.
  - rewrite IH. destruct (decide (y = x)) as [->|Hy].
    + rewrite (bool_decide_eq_true_2 (x = x)) by done. cbn [orb].
      symmetry. apply bool_decide_eq_true_2. left.
    + rewrite (bool_decide_eq_false_2 (y = x)) by done. cbn [orb].
      apply bool_decide_ext. rewrite elem_of_cons.
      split; [by right|]. by intros [->|?].
Qed.

(** ** Pushing onto [errors] in nested loops is a list comprehension *)

Lemma foldl_push {A B} (f : list B → A → list B) (g : A → list B) l acc :
  (∀ errors x, x ∈ l → f errors x = errors ++ g x) →
  foldl f acc l = acc ++ (l ≫= g).
Proof.
  revert acc. induction l as [|y l IH]; intros acc Hf.
  - simpl. by rewrite app_nil_r.
  - rewrite bind_cons. cbn [foldl]. rewrite Hf by left.
    rewrite IH, <- app_assoc; [done|].
    intros errors x Hx. apply Hf. by right.
Qed.


(** ** Fuel beyond the bound changes nothing *)



(** ** The example graphs *)


Lemma cycleAB_has_cycle : has_cycle cycleAB.
Proof.
  exists "A", ["B"]. simpl. split_and!; [| |done].
  - exists (declared ["B"]). split_and!; [done|set_solver|by eexists].
  - exists (declared ["A"]). split_and!; [done|set_solver|by eexists].
Qed.

(** ** The resolver on an acyclic graph *)




(** * The claims *)








(** C4: on every graph that contains a cycle, [resolveDependencies(M, G)]
    throws, for any root M: it neither returns a list nor runs out of
    stack.  What it throws is its own error, or the [TypeError] with which
    the cycle search ends when it enters an inherited member before it
    meets a name twice; on a graph whose dependency lists name no inherited
    member it is always its own error.  On [A:["B"]], [B:["A"]] it is the
    error; on [A:["constructor","B"]], [B:["A"]] it is the [TypeError]. *)
Theorem resolveDependencies_cyclic_fatal modules moduleName fuel :
  has_cycle modules → length modules < fuel →
  (resolveDependenciesFuel fuel moduleName modules
   = Throw (Error circularDependencyMessage)
   ∨ resolveDependenciesFuel fuel moduleName modules = Throw TypeError)
  ∧ (ordinary_dependencies modules →
     resolveDependenciesFuel fuel moduleName modules
     = Throw (Error circularDependencyMessage))
  ∧ resolveDependencies "A" cycleAB = Throw (Error circularDependencyMessage)
  ∧ resolveDependencies "A" inheritedInCycle = Throw TypeError.
Proof.
  intros Hc Hfuel. unfold resolveDependenciesFuel.
  destruct (has_cycle_outcome modules fuel Hfuel Hc) as [[t ->]|[-> Hinh]].
  - split_and!; [by left|done|done|done].
  - split_and!; [by right| |done|done].
    intros Hord. by apply ordinary_no_inherited in Hinh.
Qed.

Lemma resolveDependencies_cyclic_fatal_witness :
  (resolveDependenciesFuel 4 "A" cycleAB
   = Throw (Error circularDependencyMessage)
   ∨ resolveDependenciesFuel 4 "A" cycleAB = Throw TypeError)
  ∧ (ordinary_dependencies cycleAB →
     resolveDependenciesFuel 4 "A" cycleAB
     = Throw (Error circularDependencyMessage))
  ∧ resolveDependencies "A" cycleAB = Throw (Error circularDependencyMessage)
  ∧ resolveDependencies "A" inheritedInCycle = Throw TypeError.
Proof.
  apply (resolveDependencies_cyclic_fatal cycleAB "A" 4).
  - apply cycleAB_has_cycle.
  - simpl. lia.
Defined.

(** C9: the claim says that names absent from the graph are not
    traversed.  On the graph [A:["constructor"]], which has no module
    named [constructor], the search from [A] passes the test
    [if (modules[dep])], enters [constructor] and ends with a [TypeError];
    on [A:["ghost","B"]], [B:["ghost"]] the absent name is skipped. *)
Theorem findCircularReference_enters_inherited_member :
  get inheritedDependency "constructor" = None
  ∧ lookup false inheritedDependency "constructor" = Inherited
  ∧ doFind inheritedDependency 1 "constructor" ["A"] = Throw TypeError
  ∧ findCircularReference inheritedDependency = Throw TypeError
  ∧ findCircularReference danglingAB = Ret None.
Proof. by split_and!. Qed.




(** C6: the claim says that a declaration puts the declaring file first.
    When [f.js] is already listed for module [a] behind [g.js], a
    declaration of [a] made in [f.js] replaces the dependency list and
    leaves the file list [["g.js","f.js"]] as it is: the declaring file is
    not first.  The graph of the scan of [g.js] and [f.js] is that one. *)
Theorem redeclaration_keeps_file_position :
  let st := processFile (processFile Sandbox.initial referenceFile)
              (withScript lateDeclarationFile [Do (CallModule "a" None)]) in
  let st' := (angular_module "f.js" 1 st "a" (Some ["x"])).1 in
  is_Some (get (Sandbox.modules st) "a")
  ∧ ∃ m', get (Sandbox.modules st') "a" = Some m'
          ∧ ModuleConfig.dependencies m' = ["x"]
          ∧ ModuleConfig.files m' = ["g.js"; "f.js"]
          ∧ head (ModuleConfig.files m') ≠ Some "f.js"
          ∧ get (buildModulesStructure [[referenceFile; lateDeclarationFile]])
              "a"
            = Some m'.
Proof. split; [by eexists|]. eexists. by split_and!. Qed.

(** C7: the claim says that after two module events for the same file
    and module the file is listed once in the module's file list.  For a
    module named [constructor] both calls made from [c.js] throw a
    [TypeError] and record nothing: the graph has no such module, neither
    after the calls nor after the scan of a file that makes them. *)
Theorem same_file_twice_inherited_name :
  let first := angular_module "c.js" 1 Sandbox.initial "constructor" None in
  let second := angular_module "c.js" 1 first.1 "constructor" None in
  first.2 = Some TypeError ∧ second.2 = Some TypeError
  ∧ get (Sandbox.modules second.1) "constructor" = None
  ∧ buildModulesStructure [[constructorFile]] = [].
Proof. by split_and!. Qed.

(** C8: the claim says that an injected name that no provider declares
    gives no diagnostic.  Provider [p] of module [X] injects [toString];
    no provider of the graph has that name, and the validator reports the
    inject as defined in the text of the inherited function. *)
Theorem validateInjects_reports_inherited_member :
  lastOwner injectToString "toString" = None
  ∧ indexRead (moduleByProvider injectToString) "toString" = InheritedMember
  ∧ validateInjects injectToString
    = [injectError "X" "p" "toString" "function toString() { [native code] }"].
Proof. by split_and!. Qed.

(** C10: the claim says that a bare reference to a name that is not yet
    in the graph creates its module.  The graph scanned from [app.js] has
    no module named [constructor]; a bare reference to that name from
    [lib.js] throws a [TypeError], creates no entry and does not become
    the current module, while the same reference to [lib] creates the
    entry. *)
Theorem bare_reference_inherited_name :
  let st := processFile Sandbox.initial appFile in
  get (Sandbox.modules st) "constructor" = None
  ∧ angular_module "lib.js" 1 st "constructor" None = (st, Some TypeError)
  ∧ keys (Sandbox.modules (angular_module "lib.js" 1 st "constructor" None).1)
    = ["app"]
  ∧ get (Sandbox.modules (angular_module "lib.js" 1 st "lib" None).1) "lib"
    = Some {| ModuleConfig.dependencies := []; ModuleConfig.files := ["lib.js"];
              ModuleConfig.size := 1%N; ModuleConfig.providers := [] |}.
Proof. by split_and!. Qed.

(** * Further properties of the code *)

(** ** More on the cycle detector *)

Section CycleDetectorShape.
Variable modules : ModulesStructure.




End CycleDetectorShape.





(** ** More on the resolver *)



(** ** The sandbox invariant *)

Lemma angular_module_sandbox_inv fileName fileSize st name dependencies :
  sandbox_inv st →
  sandbox_inv (angular_module fileName fileSize st name dependencies).1.
Proof.
  intros (Hkeys & Hfiles & Hprov & Hcur).
  destruct (angular_module_cases fileName fileSize st name dependencies)
    as [[_ ->]|[_ ->]]; [by split_and!|].
  set (m0 := default ModuleConfig.new (get (Sandbox.modules st) name)).
  destruct (recordedModule_spec fileName fileSize m0 dependencies)
    as (_ & Hp & Hold & Hnew).
  unfold sandbox_inv, current_known. simpl. split_and!.
  - by apply NoDup_keys_set.
  - intros k m' [[-> ->]|Hin]%elem_of_set; [|by eapply Hfiles].
    destruct (decide (fileName ∈ ModuleConfig.files m0)) as [Hin|Hnin].
    + destruct (Hold Hin) as [-> _]. intros E. rewrite E in Hin.
      by apply elem_of_nil in Hin.
    + destruct (Hnew Hnin) as [-> _]. destruct dependencies; [done|].
      intros [_ ?]%app_eq_nil. done.
  - intros k m' [[-> ->]|Hin]%elem_of_set; [|by eapply Hprov].
    rewrite Hp. unfold m0.
    destruct (get (Sandbox.modules st) name) as [m1|] eqn:Hm1; simpl.
    + eapply Hprov. by apply get_Some_elem_of.
    + apply NoDup_nil_2.
  - intros n [= <-]. rewrite get_set_eq. by eexists.
Qed.

Lemma validateConstructor_sandbox_inv fileName st name constructor :
  sandbox_inv st →
  sandbox_inv (validateConstructor fileName st name constructor).1.
Proof.
  intros (Hkeys & Hfiles & Hprov & Hcur).
  destruct (validateConstructor_cases fileName st name constructor)
    as [[line ->]|[[-> _]|(current & m & Hc & Hne & Hm & Hfresh & _ & ->)]];
    [done|done|].
  simpl. apply get_Some_elem_of in Hm as Hin. split_and!.
  - by apply NoDup_keys_set.
  - intros k m' [[-> ->]|Hin']%elem_of_set; simpl; eauto.
  - intros k m' [[-> ->]|Hin']%elem_of_set; simpl; [|eauto].
    rewrite fmap_app. apply NoDup_app. split_and!; [eauto| |apply NoDup_singleton].
    by intros x Hx ->%list_elem_of_singleton.
  - intros n Hn. simpl in Hn. rewrite Hc in Hn. injection Hn as <-.
    simpl. rewrite get_set_eq. by eexists.
Qed.

Lemma initial_sandbox_inv : sandbox_inv Sandbox.initial.
Proof.
  split_and!; [apply NoDup_nil_2| | |done];
    intros k m Hin; by apply elem_of_nil in Hin.
Qed.

Lemma scan_sandbox_inv dirs : sandbox_inv (foldl processFiles Sandbox.initial dirs).
Proof.
  apply (kept_by_scan (fun _ _ => True) sandbox_inv); auto.
  - intros. by apply angular_module_sandbox_inv.
  - intros. by apply validateConstructor_sandbox_inv.
  - apply initial_sandbox_inv.
Qed.

(** X5: in every graph the builder returns, a module name has one entry,
    and each module lists at least one file and no file twice. *)
Theorem built_graph_files dirs name m :
  get (buildModulesStructure dirs) name = Some m →
  ModuleConfig.files m ≠ [] ∧ NoDup (ModuleConfig.files m)
  ∧ NoDup (keys (buildModulesStructure dirs)).
Proof.
  destruct (scan_sandbox_inv dirs) as (Hkeys & Hfiles & _).
  destruct (buildModulesStructure_invariants dirs) as [Hunique _].
  intros Hm%get_Some_elem_of. split_and!; [|by eapply Hunique|done].
  by eapply Hfiles.
Qed.

Lemma built_graph_files_witness :
  ModuleConfig.files (ModuleConfig.Build ["lib"] ["app.js"] 4%N []) ≠ []
  ∧ NoDup (ModuleConfig.files (ModuleConfig.Build ["lib"] ["app.js"] 4%N []))
  ∧ NoDup (keys (buildModulesStructure [[appFile; libFile]])).
Proof.
  apply (built_graph_files [[appFile; libFile]] "app"). reflexivity.
Defined.

(** X6: in every graph the builder returns, no module holds two providers
    of the same name, and a module whose name is the empty string holds no
    provider at all (a provider declared under it is refused). *)
Theorem built_graph_providers dirs name m :
  get (buildModulesStructure dirs) name = Some m →
  NoDup (ProviderConfig.name <$> ModuleConfig.providers m)
  ∧ (name = EmptyString → ModuleConfig.providers m = []).
Proof.
  intros Hm%get_Some_elem_of.
  destruct (scan_sandbox_inv dirs) as (_ & _ & Hprov & _).
  destruct (buildModulesStructure_invariants dirs) as [_ Hnamed].
  split; [by eapply Hprov|].
  intros ->. destruct (ModuleConfig.providers m) eqn:E; [done|].
  exfalso. eapply Hnamed; [done| |done]. by rewrite E.
Qed.

Lemma built_graph_providers_witness :
  NoDup (ProviderConfig.name <$> ModuleConfig.providers
           (ModuleConfig.Build [] ["n.js"] 1%N []))
  ∧ (EmptyString = EmptyString →
     ModuleConfig.providers (ModuleConfig.Build [] ["n.js"] 1%N []) = []).
Proof.
  apply (built_graph_providers [[anonymousFile]] EmptyString). reflexivity.
Defined.

(** ** Which calls of the sandbox throw *)

Lemma validateConstructor_no_throw fileName st name constructor :
  sandbox_inv st → (validateConstructor fileName st name constructor).2 = None.
Proof.
  intros (_ & _ & _ & Hcur).
  destruct (validateConstructor_cases fileName st name constructor)
    as [[line ->]|[[_ (current & Hc & Hnone)]|(current & m & _ & _ & _ & _ & _ & ->)]];
    [done| |done].
  destruct (Hcur current Hc) as [m Hm]. congruence.
Qed.

Lemma provider_no_throw fileName st name constructor constructed :
  sandbox_inv st →
  (angular_module_provider fileName st name constructor constructed).2 = None.
Proof.
  intros Hinv. unfold angular_module_provider.
  assert (∃ st1,
    match constructor with
    | ArrayConstructor _ =>
        validateConstructor fileName st (name +:+ "Provider") constructor
    | _ => (st, None)
    end = (st1, None) ∧ sandbox_inv st1) as (st1 & -> & Hinv1).
  { destruct constructor; try by eexists.
    pose proof (validateConstructor_no_throw fileName st (name +:+ "Provider")
                  (ArrayConstructor injected) Hinv) as H1.
    pose proof (validateConstructor_sandbox_inv fileName st
                  (name +:+ "Provider") (ArrayConstructor injected) Hinv) as H2.
    destruct (validateConstructor _ _ _ _) as [st1 thrown]. simpl in *.
    subst thrown. by eexists. }
  destruct constructed; try done. by apply validateConstructor_no_throw.
Qed.

Lemma inherited_mono prototypeDependencies name :
  inherited prototypeDependencies name = true → inherited true name = true.
Proof.
  unfold inherited. intros [H|[_ H]%andb_true_iff]%orb_true_iff.
  - by rewrite H.
  - rewrite H. simpl. by rewrite orb_true_r.
Qed.

(** A call on a sandbox that a scan left throws only if it is
    [angular.module] with an inherited name. *)
Lemma applyCall_throws fileName fileSize st call e :
  sandbox_inv st →
  (applyCall fileName fileSize st call).2 = Some e →
  e = TypeError
  ∧ ∃ name dependencies,
      call = CallModule name dependencies ∧ inherited true name = true.
Proof.
  intros Hinv.
  destruct call as [name deps|name c constructed|k name c|k]; simpl.
  - destruct (angular_module_cases fileName fileSize st name deps)
      as [[Hl ->]|[_ ->]]; [|done].
    intros [= <-]. split; [done|]. exists name, deps. split; [done|].
    apply lookup_Inherited in Hl as [_ Hl]. by eapply inherited_mono.
  - by rewrite provider_no_throw.
  - by rewrite validateConstructor_no_throw.
  - done.
Qed.

Lemma applyCall_sandbox_inv fileName fileSize st call :
  sandbox_inv st → sandbox_inv (applyCall fileName fileSize st call).1.
Proof.
  apply (kept_by_applyCall (fun _ _ => True) sandbox_inv); auto.
  - intros. by apply angular_module_sandbox_inv.
  - intros. by apply validateConstructor_sandbox_inv.
Qed.

Lemma runInContext_throws fileName fileSize st script st' e :
  sandbox_inv st →
  runInContext fileName fileSize st script = (st', Some e) →
  Fail e ∈ script
  ∨ (e = TypeError
     ∧ ∃ name dependencies,
         Do (CallModule name dependencies) ∈ script
         ∧ inherited true name = true).
Proof.
  revert st. induction script as [|[call|call|e'] rest IH]; intros st Hinv; simpl.
  - done.
  - pose proof (applyCall_throws fileName fileSize st call) as H1.
    pose proof (applyCall_sandbox_inv fileName fileSize st call Hinv) as H2.
    destruct (applyCall fileName fileSize st call) as [st1 [e1|]]; simpl in *.
    + intros [= _ <-].
      destruct (H1 e1 Hinv eq_refl) as (-> & name & deps & -> & Hname).
      right. split; [done|]. exists name, deps. split; [left|done].
    + intros Hrun.
      destruct (IH st1 H2 Hrun) as [Hfail|(-> & name & deps & Hin & Hname)].
      * left. by right.
      * right. split; [done|]. exists name, deps. split; [by right|done].
  - intros Hrun.
    pose proof (applyCall_sandbox_inv fileName fileSize st call Hinv) as H2.
    destruct (IH _ H2 Hrun) as [Hfail|(-> & name & deps & Hin & Hname)].
    + left. by right.
    + right. split; [done|]. exists name, deps. split; [by right|done].
  - intros [= _ ->]. left. left.
Qed.

(** X7: during a scan, the calls that go through [validateConstructor]
    never throw (the current module is always a module of the graph).
    When running a script ends with an exception, either the script threw
    it itself, or it is the [TypeError] of an [angular.module] call whose
    name is that of an inherited member ([dependencies] counts as one
    once [Object.prototype] has been given such a property). *)
Theorem sandbox_throws_only_for_inherited_names dirs fileName fileSize script
    st' e :
  runInContext fileName fileSize (foldl processFiles Sandbox.initial dirs)
    script = (st', Some e) →
  Fail e ∈ script
  ∨ (e = TypeError
     ∧ ∃ name dependencies,
         Do (CallModule name dependencies) ∈ script
         ∧ (name ∈ objectPrototypeMembers ∨ name = "dependencies")).
Proof.
  intros Hrun.
  destruct (runInContext_throws fileName fileSize _ script st' e
              (scan_sandbox_inv dirs) Hrun)
    as [Hfail|(-> & name & deps & Hin & Hname)]; [by left|right].
  split; [done|]. exists name, deps. split; [done|].
  unfold inherited in Hname. simpl in Hname.
  apply orb_true_iff in Hname as [Hname|Hname]; [left|right];
    by apply bool_decide_eq_true in Hname.
Qed.

Lemma sandbox_throws_only_for_inherited_names_witness :
  Fail TypeError ∈ SourceFile.script constructorFile
  ∨ (TypeError = TypeError
     ∧ ∃ name dependencies,
         Do (CallModule name dependencies) ∈ SourceFile.script constructorFile
         ∧ (name ∈ objectPrototypeMembers ∨ name = "dependencies")).
Proof.
  apply (sandbox_throws_only_for_inherited_names [[appFile; libFile]] "c.js"
           1%N (SourceFile.script constructorFile)
           (runInContext "c.js" 1%N
              (foldl processFiles Sandbox.initial [[appFile; libFile]])
              (SourceFile.script constructorFile)).1 TypeError).
  reflexivity.
Defined.

(** ** Nothing recorded gets lost *)

Lemma grows_refl modules : grows modules modules.
Proof. intros k m Hm. exists m. by split_and!. Qed.

Lemma grows_trans modules1 modules2 modules3 :
  grows modules1 modules2 → grows modules2 modules3 → grows modules1 modules3.
Proof.
  intros H12 H23 k m Hm.
  destruct (H12 k m Hm) as (m2 & Hm2 & Hf2 & Hp2 & Hs2).
  destruct (H23 k m2 Hm2) as (m3 & Hm3 & Hf3 & Hp3 & Hs3).
  exists m3. split_and!; [done|set_solver|by etrans|lia].
Qed.

Lemma sandbox_grows_refl st : sandbox_grows st st.
Proof. split_and!; [apply grows_refl|done|done]. Qed.

Lemma sandbox_grows_trans st1 st2 st3 :
  sandbox_grows st1 st2 → sandbox_grows st2 st3 → sandbox_grows st1 st3.
Proof.
  intros (H1 & H2 & H3) (H4 & H5 & H6).
  split_and!; [by eapply grows_trans|by etrans|by etrans].
Qed.

Lemma grows_set modules k m' :
  (∀ m, get modules k = Some m →
     ModuleConfig.files m ⊆ ModuleConfig.files m'
     ∧ ModuleConfig.providers m `prefix_of` ModuleConfig.providers m'
     ∧ (ModuleConfig.size m ≤ ModuleConfig.size m')%N) →
  grows modules (set modules k m').
Proof.
  intros Hk k0 m Hm. destruct (decide (k = k0)) as [->|Hne].
  - exists m'. rewrite get_set_eq. split; [done|]. by apply Hk.
  - exists m. rewrite get_set_ne by done. by split_and!.
Qed.

Lemma angular_module_grows fileName fileSize st name dependencies :
  sandbox_grows st (angular_module fileName fileSize st name dependencies).1.
Proof.
  destruct (angular_module_cases fileName fileSize st name dependencies)
    as [[_ ->]|[_ ->]]; [split_and!; [apply grows_refl|done|done]|].
  unfold sandbox_grows. simpl.
  split_and!; [|apply keys_set_sublist|done].
  apply grows_set. intros m Hm. rewrite Hm. simpl.
  destruct (recordedModule_spec fileName fileSize m dependencies)
    as (_ & Hp & Hold & Hnew).
  rewrite Hp. destruct (decide (fileName ∈ ModuleConfig.files m)) as [Hin|Hnin].
  - destruct (Hold Hin) as [-> ->]. by split_and!.
  - destruct (Hnew Hnin) as [-> ->]. split_and!; [|done|lia].
    destruct dependencies; set_solver.
Qed.

Lemma error_grows st line : sandbox_grows st (Sandbox.error st line).
Proof.
  split_and!; [apply grows_refl|done|]. simpl. by apply prefix_app_r.
Qed.

Lemma validateConstructor_grows fileName st name constructor :
  sandbox_grows st (validateConstructor fileName st name constructor).1.
Proof.
  destruct (validateConstructor_cases fileName st name constructor)
    as [[line ->]|[[-> _]|(current & m & _ & _ & Hm & _ & _ & ->)]].
  - apply error_grows.
  - apply sandbox_grows_refl.
  - simpl. split_and!; [|apply keys_set_sublist|done].
    apply grows_set. intros m0 Hm0. rewrite Hm in Hm0. injection Hm0 as <-.
    simpl. split_and!; [done|by apply prefix_app_r|done].
Qed.

Lemma processFiles_grows st files : sandbox_grows st (processFiles st files).
Proof.
  apply (kept_by_processFiles (fun _ _ => True) (sandbox_grows st)); auto.
  - intros. eapply sandbox_grows_trans; [done|apply angular_module_grows].
  - intros. eapply sandbox_grows_trans; [done|apply validateConstructor_grows].
  - intros. eapply sandbox_grows_trans; [done|apply error_grows].
  - apply sandbox_grows_refl.
Qed.

(** X8: scanning further files never removes anything: a module that is
    in the graph stays, keeps every file it lists and every provider it
    holds (later providers are appended), and its size does not shrink;
    the names that were keys stay keys, in the same order among
    themselves, and console lines are only appended.  Only a dependency
    list may be replaced. *)
Theorem scan_never_forgets st files k m :
  get (Sandbox.modules st) k = Some m →
  (∃ m', get (Sandbox.modules (processFiles st files)) k = Some m'
         ∧ ModuleConfig.files m ⊆ ModuleConfig.files m'
         ∧ ModuleConfig.providers m `prefix_of` ModuleConfig.providers m'
         ∧ (ModuleConfig.size m ≤ ModuleConfig.size m')%N)
  ∧ keys (Sandbox.modules st)
    `sublist_of` keys (Sandbox.modules (processFiles st files))
  ∧ Sandbox.console st `prefix_of` Sandbox.console (processFiles st files).
Proof.
  intros Hm. destruct (processFiles_grows st files) as (Hg & Hk & Hc).
  split_and!; [by apply Hg|done|done].
Qed.

Lemma scan_never_forgets_witness :
  (∃ m', get (Sandbox.modules
                (processFiles (processFile Sandbox.initial anonymousFile)
                   [referenceFile; numberedFile; anonymousFile])) "m"
         = Some m'
         ∧ ["n.js"] ⊆ ModuleConfig.files m'
         ∧ [ProviderConfig.Build "svc" ["a"]]
           `prefix_of` ModuleConfig.providers m'
         ∧ (1 ≤ ModuleConfig.size m')%N)
  ∧ keys (Sandbox.modules (processFile Sandbox.initial anonymousFile))
    `sublist_of`
    keys (Sandbox.modules
            (processFiles (processFile Sandbox.initial anonymousFile)
               [referenceFile; numberedFile; anonymousFile]))
  ∧ Sandbox.console (processFile Sandbox.initial anonymousFile)
    `prefix_of`
    Sandbox.console
      (processFiles (processFile Sandbox.initial anonymousFile)
         [referenceFile; numberedFile; anonymousFile]).
Proof.
  apply (scan_never_forgets (processFile Sandbox.initial anonymousFile)
           [referenceFile; numberedFile; anonymousFile] "m"
           (ModuleConfig.Build [] ["n.js"] 1%N
              [ProviderConfig.Build "svc" ["a"]])).
  reflexivity.
Defined.
(** ** Sizes *)

Lemma sumN_app l1 l2 : sumN (l1 ++ l2) = (sumN l1 + sumN l2)%N.
Proof.
  induction l1 as [|x l1 IH]; simpl; [done|].
  unfold sumN in *. simpl. rewrite IH. lia.
Qed.

Lemma angular_module_sizes_follow sz fileName fileSize st name dependencies :
  fileSize = sz fileName →
  sizes_follow sz (Sandbox.modules st) →
  sizes_follow sz
    (Sandbox.modules (angular_module fileName fileSize st name dependencies).1).
Proof.
  intros Hsz Hinv.
  destruct (angular_module_cases fileName fileSize st name dependencies)
    as [[_ ->]|[_ ->]]; [done|]. simpl.
  destruct (recordedModule_spec fileName fileSize
              (default ModuleConfig.new (get (Sandbox.modules st) name))
              dependencies) as (_ & _ & Hold & Hnew).
  intros k m' [[-> ->]|Hin]%elem_of_set; [|by eapply Hinv].
  assert (ModuleConfig.size
            (default ModuleConfig.new (get (Sandbox.modules st) name))
          = sumN (sz <$> ModuleConfig.files
                    (default ModuleConfig.new (get (Sandbox.modules st) name))))
    as H0.
  { destruct (get (Sandbox.modules st) name) as [m0|] eqn:Hm0; simpl; [|done].
    eapply Hinv. by apply get_Some_elem_of. }
  destruct (decide (fileName ∈ ModuleConfig.files
              (default ModuleConfig.new (get (Sandbox.modules st) name))))
    as [Hin|Hnin].
  - destruct (Hold Hin) as [-> ->]. done.
  - destruct (Hnew Hnin) as [-> ->]. rewrite H0, Hsz. destruct dependencies.
    + rewrite fmap_cons. unfold sumN. simpl. lia.
    + rewrite fmap_app, sumN_app. unfold sumN. simpl. lia.
Qed.

Lemma validateConstructor_sizes_follow sz fileName st name constructor :
  sizes_follow sz (Sandbox.modules st) →
  sizes_follow sz
    (Sandbox.modules (validateConstructor fileName st name constructor).1).
Proof.
  intros Hinv.
  destruct (validateConstructor_cases fileName st name constructor)
    as [[line ->]|[[-> _]|(current & m & _ & _ & Hm & _ & _ & ->)]];
    [done|done|].
  simpl. apply get_Some_elem_of in Hm.
  intros k m' [[-> ->]|Hin]%elem_of_set; simpl; eauto.
Qed.

(** X9: when every scanned file name comes with one size, the size of each
    module of the built graph is the total of the sizes of the files it
    lists: a file counts once however often it is scanned or however many
    calls it makes. *)
Theorem built_graph_sizes (sz : string → N) dirs name m :
  (∀ dir file, dir ∈ dirs → file ∈ dir →
     SourceFile.fileSize file = sz (SourceFile.fileName file)) →
  get (buildModulesStructure dirs) name = Some m →
  ModuleConfig.size m = sumN (sz <$> ModuleConfig.files m).
Proof.
  intros Hsz Hm%get_Some_elem_of. revert name m Hm.
  apply (kept_by_scan (fun fileName fileSize => fileSize = sz fileName)
           (fun st => sizes_follow sz (Sandbox.modules st))); [| |done|done|].
  - intros. by apply angular_module_sizes_follow.
  - intros. by apply validateConstructor_sizes_follow.
  - intros k m Hin. by apply elem_of_nil in Hin.
Qed.

Lemma built_graph_sizes_witness :
  ModuleConfig.size (ModuleConfig.Build ["x"] ["g.js"; "f.js"] 2%N [])
  = sumN ((fun _ => 1%N)
            <$> ModuleConfig.files
                  (ModuleConfig.Build ["x"] ["g.js"; "f.js"] 2%N [])).
Proof.
  apply (built_graph_sizes (fun _ => 1%N)
           [[referenceFile; lateDeclarationFile]; [referenceFile]] "a").
  - intros dir file Hdir Hfile.
    repeat (apply elem_of_cons in Hdir as [->|Hdir]);
      [..|by apply elem_of_nil in Hdir];
      repeat (apply elem_of_cons in Hfile as [->|Hfile]);
      try reflexivity; by apply elem_of_nil in Hfile.
  - reflexivity.
Defined.
(** ** Provider calls record no declaration *)

Lemma same_declarations_refl st : same_declarations st st.
Proof. split_and!; [done|done|]. intros k m Hm. exists m. by split_and!. Qed.

Lemma same_declarations_trans st1 st2 st3 :
  same_declarations st1 st2 → same_declarations st2 st3 →
  same_declarations st1 st3.
Proof.
  intros (Hk12 & Hc12 & H12) (Hk23 & Hc23 & H23).
  split_and!; [congruence|congruence|].
  intros k m Hm. destruct (H12 k m Hm) as (m2 & Hm2 & ? & ? & ?).
  destruct (H23 k m2 Hm2) as (m3 & Hm3 & ? & ? & ?).
  exists m3. split_and!; congruence.
Qed.

Lemma error_same_declarations st line :
  same_declarations st (Sandbox.error st line).
Proof. split_and!; [done|done|]. intros k m Hm. exists m. by split_and!. Qed.

Lemma validateConstructor_same_declarations fileName st name constructor :
  same_declarations st (validateConstructor fileName st name constructor).1.
Proof.
  destruct (validateConstructor_cases fileName st name constructor)
    as [[line ->]|[[-> _]|(current & m & _ & _ & Hm & _ & _ & ->)]].
  - apply error_same_declarations.
  - apply same_declarations_refl.
  - simpl. split_and!; [apply keys_set_present; by eexists|done|].
    intros k m0 Hm0. destruct (decide (current = k)) as [->|Hne].
    + eexists. split; [apply get_set_eq|].
      rewrite Hm in Hm0. by injection Hm0 as <-.
    + exists m0. simpl. rewrite get_set_ne by done. by split_and!.
Qed.

Lemma provider_same_declarations fileName st name constructor constructed :
  same_declarations st
    (angular_module_provider fileName st name constructor constructed).1.
Proof.
  apply (kept_by_provider (same_declarations st)).
  - intros. eapply same_declarations_trans;
      [done|apply validateConstructor_same_declarations].
  - intros. eapply same_declarations_trans; [done|apply error_same_declarations].
  - apply same_declarations_refl.
Qed.

(** X10: a call other than [angular.module] ([provider], [factory],
    [service], [controller], [directive], [value], ...) never declares
    anything: the module names, the current module, and the dependencies,
    files and size of every module are as before; only provider lists and
    the console can change. *)
Theorem provider_calls_keep_declarations fileName fileSize st call k m :
  (∀ name dependencies, call ≠ CallModule name dependencies) →
  get (Sandbox.modules st) k = Some m →
  keys (Sandbox.modules (applyCall fileName fileSize st call).1)
  = keys (Sandbox.modules st)
  ∧ Sandbox.currentModuleName (applyCall fileName fileSize st call).1
    = Sandbox.currentModuleName st
  ∧ ∃ m', get (Sandbox.modules (applyCall fileName fileSize st call).1) k
          = Some m'
          ∧ ModuleConfig.dependencies m' = ModuleConfig.dependencies m
          ∧ ModuleConfig.files m' = ModuleConfig.files m
          ∧ ModuleConfig.size m' = ModuleConfig.size m.
Proof.
  intros Hcall Hm.
  assert (same_declarations st (applyCall fileName fileSize st call).1)
    as (Hk & Hc & Hg).
  { destruct call as [name deps|name c constructed|kind name c|kind]; simpl.
    - by destruct (Hcall name deps).
    - apply provider_same_declarations.
    - apply validateConstructor_same_declarations.
    - apply same_declarations_refl. }
  split_and!; [done|done|by apply Hg].
Qed.

Lemma provider_calls_keep_declarations_witness :
  let st := processFile Sandbox.initial appFile in
  let call := CallProvider "store" (ArrayConstructor ["$q"])
                (WithGet (ArrayConstructor ["$http"])) in
  keys (Sandbox.modules (applyCall "s.js" 7 st call).1)
  = keys (Sandbox.modules st)
  ∧ Sandbox.currentModuleName (applyCall "s.js" 7 st call).1
    = Sandbox.currentModuleName st
  ∧ ∃ m', get (Sandbox.modules (applyCall "s.js" 7 st call).1) "app" = Some m'
          ∧ ModuleConfig.dependencies m' = ["lib"]
          ∧ ModuleConfig.files m' = ["app.js"]
          ∧ ModuleConfig.size m' = 4%N.
Proof.
  apply (provider_calls_keep_declarations "s.js" 7%N
           (processFile Sandbox.initial appFile)
           (CallProvider "store" (ArrayConstructor ["$q"])
              (WithGet (ArrayConstructor ["$http"])))
           "app" (ModuleConfig.Build ["lib"] ["app.js"] 4%N [])).
  - intros name dependencies. discriminate.
  - reflexivity.
Defined.
(** ** Two calls for one module from one file *)

(** X21: when an [angular.module] call returns (its name is not that of
    an inherited member), a second call for the same module from the same
    file returns as well and changes neither the file list nor the size of
    the module: the file is listed exactly once, and its size was added
    exactly once (not at all if the file was listed before the first
    call).  This holds in every sandbox state whose file lists have no
    repetition, as the states of a scan do. *)
Theorem repeated_module_call_idempotent fileName fileSize st name deps1 deps2
    st1 :
  files_unique (Sandbox.modules st) →
  angular_module fileName fileSize st name deps1 = (st1, None) →
  ∃ st2 m1 m2,
    angular_module fileName fileSize st1 name deps2 = (st2, None)
    ∧ get (Sandbox.modules st1) name = Some m1
    ∧ get (Sandbox.modules st2) name = Some m2
    ∧ ModuleConfig.files m2 = ModuleConfig.files m1
    ∧ ModuleConfig.size m2 = ModuleConfig.size m1
    ∧ length (filter (λ f, f = fileName) (ModuleConfig.files m2)) = 1
    ∧ ModuleConfig.size m2
      = (ModuleConfig.size
           (default ModuleConfig.new (get (Sandbox.modules st) name))
         + (if decide (fileName ∈ ModuleConfig.files
                         (default ModuleConfig.new
                            (get (Sandbox.modules st) name)))
            then 0 else fileSize))%N.
Proof.
  intros Hinv Hfirst.
  pose proof (angular_module_files_unique fileName fileSize st name deps1 Hinv)
    as Hinv1.
  destruct (angular_module_cases fileName fileSize st name deps1)
    as [[_ Heq]|[_ Heq]]; rewrite Heq in Hfirst, Hinv1; [done|].
  injection Hfirst as <-. simpl in Hinv1.
  set (m0 := default ModuleConfig.new (get (Sandbox.modules st) name)) in *.
  set (m1 := recordedModule fileName fileSize m0 deps1) in *.
  destruct (recordedModule_spec fileName fileSize m0 deps1)
    as (_ & _ & Hold1 & Hnew1). fold m1 in Hold1, Hnew1.
  assert (fileName ∈ ModuleConfig.files m1
          ∧ ModuleConfig.size m1
            = (ModuleConfig.size m0
               + (if decide (fileName ∈ ModuleConfig.files m0)
                  then 0 else fileSize))%N) as [Hin Hsize].
  { case_decide as H0.
    - destruct (Hold1 H0) as [-> ->]. split; [done|lia].
    - destruct (Hnew1 H0) as [-> ->]. split; [|done].
      destruct deps1; set_solver. }
  destruct (angular_module_cases fileName fileSize
              {| Sandbox.modules := set (Sandbox.modules st) name m1;
                 Sandbox.currentModuleName := Some name;
                 Sandbox.console := Sandbox.console st;
                 Sandbox.prototypeDependencies :=
                   Sandbox.prototypeDependencies st |} name deps2)
    as [[Hl _]|[_ Heq2]].
  { apply lookup_Inherited in Hl as [Hl _]. simpl in Hl.
    by rewrite get_set_eq in Hl. }
  simpl in Heq2. rewrite get_set_eq in Heq2. simpl in Heq2.
  destruct (recordedModule_spec fileName fileSize m1 deps2)
    as (_ & _ & Hold2 & _).
  destruct (Hold2 Hin) as [Hf2 Hs2].
  eexists _, m1, _. split; [exact Heq2|]. simpl. rewrite !get_set_eq.
  split_and!; [done|done|done|done| |congruence].
  rewrite Hf2. apply filter_eq_length_1; [|done].
  eapply Hinv1. apply get_Some_elem_of, get_set_eq.
Qed.

Lemma repeated_module_call_idempotent_witness :
  ∃ st2 m1 m2,
    angular_module "f.js" 3
      (angular_module "f.js" 3 (processFile Sandbox.initial referenceFile)
         "a" None).1 "a" (Some ["x"]) = (st2, None)
    ∧ get (Sandbox.modules
             (angular_module "f.js" 3
                (processFile Sandbox.initial referenceFile) "a" None).1) "a"
      = Some m1
    ∧ get (Sandbox.modules st2) "a" = Some m2
    ∧ ModuleConfig.files m2 = ModuleConfig.files m1
    ∧ ModuleConfig.size m2 = ModuleConfig.size m1
    ∧ length (filter (λ f, f = "f.js") (ModuleConfig.files m2)) = 1
    ∧ ModuleConfig.size m2
      = (ModuleConfig.size
           (default ModuleConfig.new
              (get (Sandbox.modules (processFile Sandbox.initial referenceFile))
                 "a"))
         + (if decide ("f.js" ∈ ModuleConfig.files
                         (default ModuleConfig.new
                            (get (Sandbox.modules
                                    (processFile Sandbox.initial referenceFile))
                               "a")))
            then 0 else 3))%N.
Proof.
  apply (repeated_module_call_idempotent "f.js" 3%N
           (processFile Sandbox.initial referenceFile) "a" None (Some ["x"])).
  - exact (proj1 (buildModulesStructure_invariants [[referenceFile]])).
  - reflexivity.
Defined.

(** ** The DOT export *)

Lemma string_app_assoc (s1 s2 s3 : string) :
  (s1 +:+ s2) +:+ s3 = s1 +:+ (s2 +:+ s3).
Proof.
  induction s1 as [|a s1 IH]; [done|].
  change (String a ((s1 +:+ s2) +:+ s3) = String a (s1 +:+ (s2 +:+ s3))).
  by rewrite IH.
Qed.

Lemma string_app_empty_r (s : string) : s +:+ EmptyString = s.
Proof.
  induction s as [|a s IH]; [done|].
  change (String a (s +:+ EmptyString) = String a s). by rewrite IH.
Qed.

Lemma concatStrings_app l1 l2 :
  concatStrings (l1 ++ l2) = concatStrings l1 +:+ concatStrings l2.
Proof.
  induction l1 as [|x l1 IH]; simpl; [done|].
  unfold concatStrings in *. simpl. by rewrite IH, string_app_assoc.
Qed.

(** Appending to [graph] in a loop appends the concatenation of what each
    round appends. *)
Lemma foldl_append {A} (f : string → A → string) (g : A → list string) l acc :
  (∀ graph x, x ∈ l → f graph x = graph +:+ concatStrings (g x)) →
  foldl f acc l = acc +:+ concatStrings (l ≫= g).
Proof.
  revert acc. induction l as [|y l IH]; intros acc Hf.
  - simpl. by rewrite string_app_empty_r.
  - rewrite bind_cons. cbn [foldl]. rewrite Hf by left.
    rewrite IH, concatStrings_app, string_app_assoc; [done|].
    intros graph x Hx. apply Hf. by right.
Qed.

(** X11: the diagram is the header, one node line for each module in key
    order, then one edge line for each dependency that names a module of
    the graph (in key order, then in the order of the dependency list),
    then the closing brace; a dependency that names no module of the graph
    draws nothing. *)
Theorem buildDOTDiagram_layout modules :
  buildDOTDiagram modules
  = "digraph dependencies {" +:+ newline
    +:+ join newline (dotNode <$> keys modules) +:+ newline
    +:+ concatStrings (dotEdges modules) +:+ newline +:+ "}".
Proof.
  unfold buildDOTDiagram, dotEdges.
  rewrite (foldl_append _
    (fun '(moduleName, module) =>
       dep ← ModuleConfig.dependencies module;
       if decide (dep ∈ keys modules) then [dotEdge moduleName dep] else [])).
  - by rewrite !string_app_assoc.
  - intros graph [moduleName module] _.
    apply foldl_append. intros graph' dep _.
    case_bool_decide as Hidx; rewrite indexOf_nonneg in Hidx.
    + rewrite decide_True by done. unfold concatStrings. simpl.
      by rewrite string_app_empty_r.
    + rewrite decide_False by done. unfold concatStrings. simpl.
      by rewrite string_app_empty_r.
Qed.

(** ** The provider index *)

Lemma declarations_app modules1 modules2 :
  declarations (modules1 ++ modules2)
  = declarations modules1 ++ declarations modules2.
Proof. unfold declarations. apply bind_app. Qed.

Lemma declarations_names modules s :
  (∀ k m, (k, m) ∈ modules →
     s ∉ ProviderConfig.name <$> ModuleConfig.providers m) →
  filter (fun d => d.1 = s) (declarations modules) = [].
Proof.
  intros Hnone. apply elem_of_nil_inv. intros d [Hd Hin]%list_elem_of_filter.
  apply list_elem_of_bind in Hin as ([k m] & Hin & Hm).
  apply list_elem_of_fmap in Hin as (p & -> & Hp). simpl in Hd.
  apply (Hnone k m Hm). rewrite <- Hd. by apply list_elem_of_fmap_2.
Qed.

Lemma moduleByProvider_last modules before owner m after s :
  modules = before ++ (owner, m) :: after →
  s ∈ ProviderConfig.name <$> ModuleConfig.providers m →
  (∀ k m', (k, m') ∈ after →
     s ∉ ProviderConfig.name <$> ModuleConfig.providers m') →
  s ≠ "__proto__" →
  moduleByProvider modules !! s = Some owner.
Proof.
  intros -> Hs Hafter Hproto. rewrite moduleByProvider_lastOwner by done.
  unfold lastOwner.
  change ((owner, m) :: after) with ([(owner, m)] ++ after).
  rewrite !declarations_app, !filter_app, (declarations_names after s Hafter).
  rewrite app_nil_r.
  apply list_elem_of_fmap in Hs as (p & -> & Hp).
  assert (∃ d, last (filter (fun d => d.1 = ProviderConfig.name p)
                       (declarations [(owner, m)])) = Some d ∧ d.2 = owner)
    as (d & Hd & Hd2).
  { assert ((ProviderConfig.name p, owner)
            ∈ filter (fun d => d.1 = ProviderConfig.name p)
                (declarations [(owner, m)])) as Hin.
    { apply list_elem_of_filter. split; [done|].
      rewrite declarations_cons. apply elem_of_app. left.
      by apply (list_elem_of_fmap_2
                  (fun provider => (ProviderConfig.name provider, owner))). }
    destruct (last _) as [d|] eqn:Hlast.
    - exists d. split; [done|].
      apply last_Some_elem_of, list_elem_of_filter in Hlast as [_ Hlast].
      rewrite declarations_cons in Hlast.
      apply elem_of_app in Hlast as [Hlast|Hlast%elem_of_nil]; [|done].
      by apply list_elem_of_fmap in Hlast as (p' & -> & _).
    - apply last_None in Hlast. rewrite Hlast in Hin.
      by apply elem_of_nil in Hin. }
  rewrite last_app, Hd. simpl. by rewrite Hd2.
Qed.

(** X12: the index [moduleByProvider] gives, for a provider name other
    than [__proto__], the last module in key order that declares a provider
    of that name: a later declaration replaces an earlier one.  Under the
    name [__proto__] nothing is ever entered: reading it gives the
    inherited member, whatever the graph declares. *)
Theorem moduleByProvider_last_declaring modules before owner m after s :
  modules = before ++ (owner, m) :: after →
  s ∈ ProviderConfig.name <$> ModuleConfig.providers m →
  (∀ k m', (k, m') ∈ after →
     s ∉ ProviderConfig.name <$> ModuleConfig.providers m') →
  s ≠ "__proto__" →
  indexRead (moduleByProvider modules) s = OwnerName owner
  ∧ indexRead (moduleByProvider modules) "__proto__" = InheritedMember.
Proof.
  intros Hmod Hs Hafter Hproto. unfold indexRead.
  rewrite (moduleByProvider_last modules before owner m after s) by done.
  split; [done|].
  by rewrite moduleByProvider_declarations, foldl_indexWrite_proto.
Qed.

Lemma moduleByProvider_last_declaring_witness :
  indexRead (moduleByProvider clashXY) "svc" = OwnerName "Y"
  ∧ indexRead (moduleByProvider clashXY) "__proto__" = InheritedMember.
Proof.
  apply (moduleByProvider_last_declaring clashXY
           [("X", ModuleConfig.Build [] ["x.js"] 1%N
                    [ProviderConfig.Build "svc" [];
                     ProviderConfig.Build "p" ["svc"]])]
           "Y" (ModuleConfig.Build [] ["y.js"] 1%N [ProviderConfig.Build "svc" []])
           [] "svc").
  - reflexivity.
  - simpl. left.
  - intros k m' Hin. by apply elem_of_nil in Hin.
  - discriminate.
Defined.

(** ** Diagnostics when provider names clash *)

Lemma validateInjects_bind modules :
  validateInjects modules
  = '(moduleName, module) ← modules;
    provider ← ModuleConfig.providers module;
    inject ← ProviderConfig.injects provider;
    if invalidInject (moduleByProvider modules) moduleName module inject
    then [injectError moduleName (ProviderConfig.name provider) inject
            (entryText inject (indexRead (moduleByProvider modules) inject))]
    else [].
Proof.
  unfold validateInjects.
  rewrite (foldl_push _
    (fun '(moduleName, module) =>
       provider ← ModuleConfig.providers module;
       inject ← ProviderConfig.injects provider;
       if invalidInject (moduleByProvider modules) moduleName module inject
       then [injectError moduleName (ProviderConfig.name provider) inject
               (entryText inject (indexRead (moduleByProvider modules) inject))]
       else [])); [done|].
  intros errors [moduleName module] _.
  apply foldl_push. intros errors' provider _.
  apply foldl_push. intros errors'' inject _.
  destruct (invalidInject _ _ _ _); [done|]. by rewrite app_nil_r.
Qed.

(** X13: when a module Y declared later in key order has a provider of
    the same name (a name other than [__proto__]), an inject of that name
    is attributed to Y: if Y has a non-empty name, is not the injecting
    module and is not among its dependencies, the injecting module is
    reported as lacking a dependency on Y, also when the injecting module
    declares a provider of that name itself. *)
Theorem clashing_provider_reported modules before X mx between Y my after
    provider s :
  modules = before ++ (X, mx) :: between ++ (Y, my) :: after →
  s ∈ ProviderConfig.name <$> ModuleConfig.providers my →
  (∀ k m', (k, m') ∈ after →
     s ∉ ProviderConfig.name <$> ModuleConfig.providers m') →
  provider ∈ ModuleConfig.providers mx →
  s ∈ ProviderConfig.injects provider →
  s ≠ "__proto__" →
  Y ≠ EmptyString → Y ≠ X → Y ∉ ModuleConfig.dependencies mx →
  injectError X (ProviderConfig.name provider) s Y ∈ validateInjects modules.
Proof.
  intros Hmod Hs Hafter Hp Hi Hproto HY HXY Hdep.
  assert (moduleByProvider modules !! s = Some Y) as Hidx.
  { apply (moduleByProvider_last modules
             (before ++ (X, mx) :: between) Y my after s); [|done|done|done].
    rewrite Hmod, <- app_assoc. done. }
  rewrite validateInjects_bind.
  apply list_elem_of_bind. exists (X, mx). split; [|rewrite Hmod; set_solver].
  apply list_elem_of_bind. exists provider. split; [|done].
  apply list_elem_of_bind. exists s. split; [|done].
  unfold invalidInject, indexRead. rewrite Hidx. simpl.
  rewrite existsb_eq_elem_of.
  rewrite (bool_decide_eq_false_2 (Y = EmptyString)) by done.
  rewrite (bool_decide_eq_false_2 (Y = X)) by done.
  rewrite (bool_decide_eq_false_2 (Y ∈ _)) by done.
  simpl. by apply list_elem_of_singleton.
Qed.

Lemma clashing_provider_reported_witness :
  injectError "X" "p" "svc" "Y" ∈ validateInjects clashXY.
Proof.
  apply (clashing_provider_reported clashXY [] "X"
           (ModuleConfig.Build [] ["x.js"] 1%N
              [ProviderConfig.Build "svc" []; ProviderConfig.Build "p" ["svc"]])
           [] "Y"
           (ModuleConfig.Build [] ["y.js"] 1%N [ProviderConfig.Build "svc" []])
           [] (ProviderConfig.Build "p" ["svc"]) "svc").
  - reflexivity.
  - simpl. left.
  - intros k m' Hin. by apply elem_of_nil in Hin.
  - simpl. right. left.
  - simpl. left.
  - discriminate.
  - discriminate.
  - discriminate.
  - simpl. apply not_elem_of_nil.
Defined.
(** ** The validator on ordinary names *)








(** ** Substrings *)

Lemma append_cons c (a b : string) : String c a +:+ b = String c (a +:+ b).
Proof. done. Qed.

Lemma length_append (a b : string) :
  String.length (a +:+ b) = String.length a + String.length b.
Proof.
  induction a as [|c a IH]; [done|]. rewrite append_cons. simpl. by rewrite IH.
Qed.

Lemma substring_0_full s : String.substring 0 (String.length s) s = s.
Proof. induction s as [|c s IH]; [done|]. simpl. by rewrite IH. Qed.

Lemma substring_0_app (a b : string) :
  String.substring 0 (String.length a) (a +:+ b) = a.
Proof.
  induction a as [|c a IH]; [by destruct b|].
  rewrite append_cons. simpl. by rewrite IH.
Qed.

Lemma substring_skip_app (a b : string) n m :
  String.substring (String.length a + n) m (a +:+ b) = String.substring n m b.
Proof. induction a as [|c a IH]; [done|]. rewrite append_cons. simpl. apply IH. Qed.

Lemma substring_within (a x : string) p n :
  p + n ≤ String.length a →
  String.substring p n (a +:+ x) = String.substring p n a.
Proof.
  revert p n. induction a as [|c a IH]; intros p n Hle; simpl in Hle.
  - assert (p = 0) as -> by lia. assert (n = 0) as -> by lia. by destruct x.
  - rewrite append_cons. destruct p as [|p]; simpl.
    + destruct n as [|n]; [done|]. rewrite IH by lia. done.
    + apply IH. lia.
Qed.

Lemma substring_split s k :
  k ≤ String.length s →
  String.substring 0 k s +:+ String.substring k (String.length s - k) s = s.
Proof.
  revert k. induction s as [|c s IH]; intros k Hle; simpl in Hle.
  - assert (k = 0) as -> by lia. done.
  - destruct k as [|k].
    + change (String.substring 0 0 (String c s)) with EmptyString.
      change (EmptyString +:+ ?x) with x. apply (substring_0_full (String c s)).
    + change (String c (String.substring 0 k s
                        +:+ String.substring k (String.length s - k) s)
              = String c s).
      rewrite IH by lia. done.
Qed.

Lemma length_substring_0 s k :
  k ≤ String.length s → String.length (String.substring 0 k s) = k.
Proof.
  revert k. induction s as [|c s IH]; intros k Hle; simpl in Hle.
  - by assert (k = 0) as -> by lia.
  - destruct k as [|k]; [done|]. simpl. rewrite IH by lia. done.
Qed.

Lemma length_substring_le s m n :
  String.length (String.substring m n s) ≤ String.length s - m.
Proof.
  revert m n. induction s as [|c s IH]; intros m n.
  - by destruct m, n.
  - destruct m as [|m]; simpl.
    + destruct n as [|n]; simpl; [lia|]. specialize (IH 0 n). lia.
    + apply IH.
Qed.

Lemma occurrence_in_bounds s label m :
  label ≠ EmptyString →
  String.substring m (String.length label) s = label →
  m + String.length label ≤ String.length s.
Proof.
  intros Hne Hsub. pose proof (length_substring_le s m (String.length label)) as H.
  rewrite Hsub in H. destruct label; [done|]. simpl in *. lia.
Qed.

(** [index] finds the first occurrence, and only that. *)
Lemma index_first label s m :
  label ≠ EmptyString →
  String.substring m (String.length label) s = label →
  (∀ p, p < m → String.substring p (String.length label) s ≠ label) →
  String.index 0 label s = Some m.
Proof.
  intros Hne Hocc Hfirst.
  destruct (String.index 0 label s) as [m'|] eqn:Hidx.
  - f_equal. destruct (Nat.lt_trichotomy m' m) as [Hlt|[->|Hgt]]; [|done|].
    + exfalso. apply (Hfirst m' Hlt). by eapply String.index_correct1.
    + exfalso.
      by apply (String.index_correct2 0 m' label s Hidx m ltac:(lia) Hgt).
  - exfalso.
    by apply (String.index_correct3 0 m label s Hidx Hne ltac:(lia)).
Qed.

Lemma index_0_nonempty s m :
  String.index 0 EmptyString s = Some m → m = 0.
Proof. destruct s; simpl; [by intros [= <-]|]. by intros [= <-]. Qed.

(** ** Inserting between the labels *)

Lemma split_at_occurrence s label m :
  label ≠ EmptyString →
  String.substring m (String.length label) s = label →
  ∃ pre post, s = pre +:+ label +:+ post ∧ String.length pre = m.
Proof.
  intros Hne Hocc.
  pose proof (occurrence_in_bounds s label m Hne Hocc) as Hb.
  set (pre := String.substring 0 m s).
  set (rest := String.substring m (String.length s - m) s).
  assert (s = pre +:+ rest) as Hs
    by (symmetry; apply substring_split; lia).
  assert (String.length pre = m) as Hpre
    by (apply length_substring_0; lia).
  assert (String.substring 0 (String.length label) rest = label) as Hrest.
  { pose proof (substring_skip_app pre rest 0 (String.length label)) as E.
    rewrite Hpre, Nat.add_0_r, <- Hs in E. by rewrite <- E. }
  assert (String.length label ≤ String.length rest) as Hlen.
  { pose proof (f_equal String.length Hs) as Hl.
    rewrite length_append in Hl. lia. }
  exists pre, (String.substring (String.length label)
                 (String.length rest - String.length label) rest).
  split; [|done].
  rewrite Hs at 1. f_equal.
  rewrite <- (substring_split rest (String.length label) Hlen) at 1.
  by rewrite Hrest.
Qed.

(** What a call that returns has found, and what it returns. *)
Lemma insertBetweenLabels_Ret filePath startLabel endLabel content file file' :
  insertBetweenLabels filePath startLabel endLabel content file = Ret file' →
  ∃ start end_,
    String.index 0 startLabel file = Some start ∧ 0 < start
    ∧ String.index 0 endLabel file = Some end_ ∧ 0 < end_
    ∧ startLabel ≠ EmptyString ∧ endLabel ≠ EmptyString
    ∧ file'
      = String.substring 0 (start + String.length startLabel) file
        +:+ newline +:+ content
        +:+ String.substring end_ (String.length file - end_) file.
Proof.
  unfold insertBetweenLabels, indexOfString.
  destruct (String.index 0 startLabel file) as [start|] eqn:Hs; [|done].
  case_bool_decide as Hs0; [done|].
  destruct (String.index 0 endLabel file) as [end_|] eqn:He; [|done].
  case_bool_decide as He0; [done|].
  intros [= <-]. exists start, end_. rewrite !Nat2Z.id.
  split_and!; try done; try lia.
  - intros ->. apply index_0_nonempty in Hs. lia.
  - intros ->. apply index_0_nonempty in He. lia.
Qed.

(** X16: a start label at the very beginning of the file is reported as
    not found, like a label that does not occur at all. *)
Theorem insertBetweenLabels_label_at_start filePath startLabel endLabel content
    file rest :
  file = startLabel +:+ rest →
  insertBetweenLabels filePath startLabel endLabel content file
  = Throw (Error (labelNotFound startLabel filePath)).
Proof.
  intros ->. unfold insertBetweenLabels, indexOfString.
  assert (String.index 0 startLabel (startLabel +:+ rest) = Some 0) as ->.
  { destruct startLabel as [|c l] eqn:E.
    - change (EmptyString +:+ rest) with rest. by destruct rest.
    - rewrite <- E. apply index_first; [by rewrite E|apply substring_0_app|lia]. }
  done.
Qed.

Lemma insertBetweenLabels_label_at_start_witness :
  insertBetweenLabels "index.html" "<!--b-->" "<!--e-->" "new"
    "<!--b-->old<!--e--></html>"
  = Throw (Error (labelNotFound "<!--b-->" "index.html")).
Proof.
  apply (insertBetweenLabels_label_at_start "index.html" "<!--b-->" "<!--e-->"
           "new" "<!--b-->old<!--e--></html>" "old<!--e--></html>").
  reflexivity.
Defined.

(** X17: when the call returns and the first end label does not start
    before the first start label has ended, exactly the text between the
    two labels is replaced by a newline and the content: what precedes the
    start label, both labels and what follows the end label are kept. *)
Theorem insertBetweenLabels_replaces_between filePath startLabel endLabel
    content file file' :
  insertBetweenLabels filePath startLabel endLabel content file = Ret file' →
  (indexOfString file startLabel + Z.of_nat (String.length startLabel)
   ≤ indexOfString file endLabel)%Z →
  ∃ pre old post,
    file = pre +:+ startLabel +:+ old +:+ endLabel +:+ post
    ∧ file' = pre +:+ startLabel +:+ newline +:+ content +:+ endLabel +:+ post
    ∧ pre ≠ EmptyString.
Proof.
  intros (start & end_ & Hs & Hs0 & He & He0 & Hsne & Hene & ->)
    %insertBetweenLabels_Ret.
  unfold indexOfString. rewrite Hs, He. intros Hord.
  pose proof (String.index_correct1 _ _ _ _ Hs) as Hsocc.
  pose proof (String.index_correct1 _ _ _ _ He) as Heocc.
  destruct (split_at_occurrence file startLabel start Hsne Hsocc)
    as (pre & rest & Hfile & Hpre).
  assert (String.substring (end_ - start - String.length startLabel)
            (String.length endLabel) rest = endLabel) as Hrocc.
  { rewrite <- Heocc at 2. rewrite Hfile, <- string_app_assoc.
    rewrite <- (substring_skip_app (pre +:+ startLabel) rest).
    f_equal. rewrite length_append. lia. }
  destruct (split_at_occurrence rest endLabel _ Hene Hrocc)
    as (old & post & Hrest & Hold).
  exists pre, old, post. split_and!.
  - by rewrite Hfile, Hrest.
  - assert (String.substring 0 (start + String.length startLabel) file
            = pre +:+ startLabel) as ->.
    { rewrite Hfile, <- string_app_assoc.
      rewrite <- (substring_0_app (pre +:+ startLabel) rest) at 2.
      by rewrite length_append, Hpre. }
    assert (String.substring end_ (String.length file - end_) file
            = endLabel +:+ post) as ->.
    { assert (file = (pre +:+ startLabel +:+ old) +:+ (endLabel +:+ post))
        as Hf by (by rewrite Hfile, Hrest, !string_app_assoc).
      assert (String.length (pre +:+ startLabel +:+ old) = end_) as Hl
        by (rewrite !length_append; lia).
      rewrite Hf at 2. rewrite <- Hl at 1.
      rewrite <- (Nat.add_0_r (String.length (pre +:+ startLabel +:+ old))) at 1.
      rewrite substring_skip_app.
      replace (String.length file - end_)
        with (String.length (endLabel +:+ post)).
      - apply substring_0_full.
      - rewrite <- Hl, Hf, !length_append. lia. }
    by rewrite !string_app_assoc.
  - intros ->. simpl in Hpre. lia.
Qed.

Lemma insertBetweenLabels_replaces_between_witness :
  ∃ pre old post,
    "<html><!--b-->old<!--e--></html>"
    = pre +:+ "<!--b-->" +:+ old +:+ "<!--e-->" +:+ post
    ∧ "<html><!--b-->" +:+ newline +:+ "new<!--e--></html>"
      = pre +:+ "<!--b-->" +:+ newline +:+ "new" +:+ "<!--e-->" +:+ post
    ∧ pre ≠ EmptyString.
Proof.
  apply (insertBetweenLabels_replaces_between "index.html" "<!--b-->"
           "<!--e-->" "new" "<html><!--b-->old<!--e--></html>").
  - reflexivity.
  - vm_compute. discriminate.
Defined.

(** X18: inserting the same content again changes nothing, provided the
    first end label of the new file is the one right behind the inserted
    content. *)
Theorem insertBetweenLabels_idempotent filePath startLabel endLabel content
    file file' :
  insertBetweenLabels filePath startLabel endLabel content file = Ret file' →
  indexOfString file' endLabel
  = (indexOfString file startLabel + Z.of_nat (String.length startLabel) + 1
     + Z.of_nat (String.length content))%Z →
  insertBetweenLabels filePath startLabel endLabel content file' = Ret file'.
Proof.
  intros (start & end_ & Hs & Hs0 & He & He0 & Hsne & Hene & ->)
    %insertBetweenLabels_Ret.
  pose proof (String.index_correct1 _ _ _ _ Hs) as Hsocc.
  pose proof (occurrence_in_bounds file startLabel start Hsne Hsocc) as Hb.
  set (A := String.substring 0 (start + String.length startLabel) file).
  set (D := String.substring end_ (String.length file - end_) file).
  set (rest := String.substring (start + String.length startLabel)
                 (String.length file - (start + String.length startLabel)) file).
  assert (String.length A = start + String.length startLabel) as HA
    by (apply length_substring_0; lia).
  assert (file = A +:+ rest) as Hfile
    by (symmetry; apply substring_split; lia).
  assert (∀ p tail, p ≤ start →
            String.substring p (String.length startLabel) (A +:+ tail)
            = String.substring p (String.length startLabel) file) as Hshared.
  { intros p tail Hp. rewrite Hfile.
    rewrite !substring_within by lia. done. }
  assert (String.index 0 startLabel (A +:+ newline +:+ content +:+ D)
          = Some start) as Hs'.
  { apply index_first; [done|by rewrite Hshared|].
    intros p Hp. rewrite Hshared by lia.
    by apply (String.index_correct2 0 start startLabel file Hs p ltac:(lia)). }
  assert (indexOfString file startLabel = Z.of_nat start) as ->
    by (unfold indexOfString; by rewrite Hs).
  assert (indexOfString (A +:+ newline +:+ content +:+ D) startLabel
          = Z.of_nat start) as Hidx
    by (unfold indexOfString; by rewrite Hs').
  intros He'. unfold insertBetweenLabels. rewrite Hidx, He'.
  rewrite !bool_decide_eq_false_2 by lia.
  f_equal. rewrite Nat2Z.id.
  assert (String.substring 0 (start + String.length startLabel)
            (A +:+ newline +:+ content +:+ D) = A) as ->
    by (rewrite <- HA; apply substring_0_app).
  f_equal. f_equal. f_equal.
  assert (A +:+ newline +:+ content +:+ D = (A +:+ newline +:+ content) +:+ D)
    as -> by (by rewrite !string_app_assoc).
  assert (Z.to_nat (Z.of_nat start + Z.of_nat (String.length startLabel) + 1
                    + Z.of_nat (String.length content))
          = String.length (A +:+ newline +:+ content) + 0) as ->.
  { rewrite !length_append, HA. simpl. lia. }
  rewrite substring_skip_app.
  replace (String.length ((A +:+ newline +:+ content) +:+ D)
           - (String.length (A +:+ newline +:+ content) + 0))
    with (String.length D) by (rewrite (length_append _ D); lia).
  apply substring_0_full.
Qed.

Lemma insertBetweenLabels_idempotent_witness :
  insertBetweenLabels "index.html" "<!--b-->" "<!--e-->" "new"
    ("<html><!--b-->" +:+ newline +:+ "new<!--e--></html>")
  = Ret ("<html><!--b-->" +:+ newline +:+ "new<!--e--></html>").
Proof.
  apply (insertBetweenLabels_idempotent "index.html" "<!--b-->" "<!--e-->"
           "new" "<html><!--b-->old<!--e--></html>").
  - reflexivity.
  - reflexivity.
Defined.

